(** * SegDefDepth: the segmentation-head training driver

    A shallow embedding of [depth_anything_v2/train.py]: the image-size
    rounding helper, the [Trainer] constructor, the epoch loop with its
    logging cadence, the validation pass with best-score tracking, and
    the checkpoint writer.

    Conventions.
    - Python integers are [Z]; Python floats that are only added, halved
      and compared (losses, metrics, scores) are exact rationals [Q].
    - A Python call that can raise returns [result A].
    - Calls without an effect on what is computed or written (moving
      tensors to the device, [model.train()] and [model.eval()],
      [torch.cuda.empty_cache()], the progress bar) are left out.
    - The collaborators imported by the script (backbone and head,
      dataset adapters, metric accumulator, early stopper, TensorBoard
      writer) are not part of the script; they appear as Section
      variables, and a small set of stand-ins for them lives in
      [Module Demo]. *)

From Stdlib Require Import ZArith QArith Qminmax List Ascii String Lia Lqa.
From stdpp Require Import base gmap strings list.
Import ListNotations.

Local Open Scope Z_scope.

(** ** Python values and exceptions *)

Inductive exn : Type :=
| ValueError (msg : string)
| ZeroDivisionError
| UnboundLocalError (name : string)
| TypeError
| OSError (kind : string).

Definition result (A : Type) : Type := exn + A.

Definition Ok {A : Type} (a : A) : result A := inr a.
Definition Raise {A : Type} (e : exn) : result A := inl e.

(** What a Python name can be bound to where the script passes a score
    around: a float, or [None]. *)
Inductive pyval : Type :=
| PyNone
| PyFloat (x : Q).

(** ** [make_divisible] *)

(** [val % divisor]: Python's remainder takes the sign of the divisor,
    as [Z.modulo] does, and raises on a zero divisor. *)
Definition py_mod (a b : Z) : result Z :=
  if b =? 0 then Raise ZeroDivisionError else Ok (a mod b).

(** [def make_divisible(val, divisor=14): return val - (val % divisor)] *)
Definition make_divisible_by (val divisor : Z) : result Z :=
  match py_mod val divisor with
  | inl e => Raise e
  | inr r => Ok (val - r)
  end.

Definition patch_size : Z := 14.

(** The call with the default argument, as every call site has it. *)
Definition make_divisible (val : Z) : Z := val - val mod patch_size.


(** ** Rational comparison, as [>] on Python floats *)

Definition Qgtb (x y : Q) : bool := negb (Qle_bool x y).

(** ** Paths *)

Fixpoint ends_with_slash (s : string) : bool :=
  match s with
  | EmptyString => false
  | String c EmptyString => bool_decide (c = "/"%char)
  | String _ s' => ends_with_slash s'
  end.

(** [os.path.join(a, b)] for two segments. *)
Definition path_join (a b : string) : string :=
  if String.prefix "/" b then b
  else if bool_decide (a = "") then b
  else if ends_with_slash a then a +:+ b
  else a +:+ "/" +:+ b.

(** ** Command line, [parse_args] *)

Record Args : Type := {
  dataset : string;
  data_dir : string;
  model_weights_dir : string;
  base_size : Z;
  crop_size : Z;
  batch_size : Z;
  epochs : Z;
  lr : Q;
  save_dir : string;
  device : string;
}.

(** The defaults of [parse_args]; [__main__] then forces the device. *)
Definition parse_args_defaults : Args :=
  {| dataset := "ml4ded"; data_dir := "../data/ml4ded";
     model_weights_dir := "../model_weights";
     base_size := 580; crop_size := 518; batch_size := 6; epochs := 300;
     lr := (1 # 10000)%Q; save_dir := "./ckpt"; device := "cuda" |}.

(** ** The imported collaborators *)

(** Everything the script imports and calls but does not define.  Each
    group is one of the interfaces the script consumes. *)
Class Collaborators : Type := {
  (** opaque data *)
  Image : Type;
  Target : Type;
  Output : Type;
  Pred : Type;
  Picture : Type;
  StateDict : Type;
  Transform : Type;
  (** [os.path.expanduser] and the module constant [root_path] *)
  expanduser : string -> string;
  root_path : string;
  (** [util.augmentations] *)
  get_train_augmentation : Z -> Z -> Transform;
  get_val_augmentation : Z -> Z -> Transform;
  (** dataset adapters and [torch.utils.data.DataLoader]; a loader
      yields the same batches every time it is iterated *)
  Dataset : Type;
  NYUSDv2SegDataset : string -> string -> string -> Transform -> Dataset;
  ML4DEDSegmentationDataset : string -> string -> string -> Transform -> Dataset;
  classes : Dataset -> list string;
  DataLoader : Dataset -> Z -> list (Image * Target);
  (** the member names of the enumeration [SegLabels], in order *)
  SegLabels : list string;
  (** [dino2seg.Dino2Seg] *)
  Dino2Seg : Type;
  Dino2Seg_new : Z -> Z -> Z -> string -> Dino2Seg;
  seg_head_state_dict : Dino2Seg -> StateDict;
  forward : Dino2Seg -> Image -> Output;
  infer_image : Dino2Seg -> Image -> Output * Pred;
  (** [nn.CrossEntropyLoss(weight, ignore_index)] followed by
      [torch.mean], and [torch.optim.AdamW] with one
      zero_grad / backward / step round *)
  CrossEntropyLoss : list Q -> Z -> Output -> Target -> Q;
  Optimizer : Type;
  AdamW : Dino2Seg -> Q -> Optimizer;
  backward_step :
    Optimizer -> Dino2Seg -> (Output -> Target -> Q) -> Image -> Target ->
    Optimizer * Dino2Seg;
  (** [util.segmentationMetric.SegmentationMetric] *)
  Metric : Type;
  SegmentationMetric : Z -> list Q -> Metric;
  metric_update : Metric -> Output -> Target -> Metric;
  metric_get : Metric -> Q * Q * Q;
  (** [util.early_stopping.EarlyStopping] *)
  Stopper : Type;
  EarlyStopping : Z -> Q -> bool -> Stopper;
  stopper_call : Stopper -> pyval -> result Stopper;
  early_stop : Stopper -> bool;
  (** [util.vis.decode_segmap] and the torchvision helpers *)
  batch_len : Pred -> nat;
  decode_pred : Pred -> nat -> Picture;
  decode_target : Target -> nat -> Picture;
  decode_argmax : Output -> Picture;
  make_grid : list Picture -> Z -> Picture;
}.

(** ** The world outside the process *)

(** Lines written to standard output. *)
Inductive Line : Type :=
| UsingDataset (name : string)
| Rule
| TrainingEpoch (number total : Z)
| RunningLoss (epoch iteration : Z) (value : Q)
| Evaluating
| Metrics (pixAcc mIoU weighted_mIou : Q)
| EarlyStoppingAt (number : Z).

(** One effect on the outside world: standard output, the TensorBoard
    [writer], or the file system. *)
Inductive Event `{Collaborators} : Type :=
| Print (line : Line)
| AddScalar (tag : string) (value : Q) (step : Z)
| AddImage (tag : string) (img : Picture) (step : Z)
| MakeDirs (directory : string)
| TorchSave (obj : StateDict) (filename : string)
| CopyFile (src dst : string).

(** Files by path, the directories made so far, and the effects in the
    order they happened.  Failures of the operating system itself
    (permissions, a full disk) are outside the model. *)
Record World `{Collaborators} : Type := {
  files : gmap string StateDict;
  dirs : gset string;
  trace : list Event;
}.

Section Script.
Context `{C : Collaborators}.

Definition emit (es : list Event) (w : World) : World :=
  {| files := files w; dirs := dirs w; trace := trace w ++ es |}.

(** [os.path.exists] *)
Definition path_exists (p : string) (w : World) : bool :=
  bool_decide (p ∈ dirs w) || bool_decide (is_Some (files w !! p)).

(** [os.makedirs] *)
Definition makedirs (d : string) (w : World) : World :=
  {| files := files w; dirs := {[d]} ∪ dirs w;
     trace := trace w ++ [MakeDirs d] |}.

(** [torch.save(obj, filename)] *)
Definition torch_save (obj : StateDict) (filename : string) (w : World) : World :=
  {| files := <[filename := obj]> (files w); dirs := dirs w;
     trace := trace w ++ [TorchSave obj filename] |}.

(** [shutil.copyfile(src, dst)] *)
Definition copyfile (src dst : string) (w : World) : World * result unit :=
  if bool_decide (src = dst) then (w, Raise (OSError "SameFileError"))
  else match files w !! src with
       | None => (w, Raise (OSError "FileNotFoundError"))
       | Some content =>
           ({| files := <[dst := content]> (files w); dirs := dirs w;
               trace := trace w ++ [CopyFile src dst] |}, Ok tt)
       end.

(** ** [save_checkpoint] *)

Definition latest_name : string := "dinov2_seg.pth".
Definition best_name : string := "dinov2_seg_best_model.pth".

Definition save_checkpoint (model : Dino2Seg) (a : Args) (is_best : bool)
    (w : World) : World * result unit :=
  let directory := expanduser (save_dir a) in
  let w := if negb (path_exists directory w) then makedirs directory w else w in
  let filename := latest_name in
  let filename := path_join directory filename in
  let w := torch_save (seg_head_state_dict model) filename w in
  if is_best then
    let best_filename := best_name in
    let best_filename := path_join directory best_filename in
    copyfile filename best_filename w
  else (w, Ok tt).

(** ** The [Trainer] object *)

Record Trainer : Type := {
  args : Args;
  early_stopper : Stopper;
  train_loader : list (Image * Target);
  val_loader : list (Image * Target);
  model : Dino2Seg;
  criterion : Output -> Target -> Q;
  optimizer : Optimizer;
  metric : Metric;
  best_pred : Q;
}.

(** The weight the [match] on a label name appends, if any: a name
    without a [case] appends nothing. *)
Definition weight_case (name : string) : list Q :=
  if bool_decide (name = "BACKGROUND") then [0.1%Q]
  else if bool_decide (name = "HEAD") then [0.1%Q]
  else if bool_decide (name = "BASEPLATE") then [0.1%Q]
  else if bool_decide (name = "PREVIOUS_PART") then [0.1%Q]
  else if bool_decide (name = "CURRENT_PART") then [0.5%Q]
  else if bool_decide (name = "WELD_FLASH") then [0.1%Q]
  else [].

(** [for seg_label in SegLabels: match seg_label.name: ...] *)
Definition class_weights : list Q := flat_map weight_case SegLabels.

(** [len] of a Python list *)
Definition len {A : Type} (l : list A) : Z := Z.of_nat (length l).

(** [Trainer.__init__] *)
Definition Trainer_init (a : Args) (w : World) : result (Trainer * World) :=
  let early_stopper := EarlyStopping 10 0.01%Q true in
  let selection :=
    if bool_decide (dataset a = "nyu") then
      Ok (NYUSDv2SegDataset, UsingDataset "NYUv2",
          path_join root_path "data/nyu_depth_v2",
          make_divisible 480, make_divisible 640)
    else if bool_decide (dataset a = "ml4ded") then
      Ok (ML4DEDSegmentationDataset, UsingDataset "ML4DED",
          path_join root_path "data/ml4ded",
          make_divisible 1072, make_divisible 608)
    else Raise (ValueError ("Unknown dataset " +:+ dataset a)) in
  match selection with
  | inl e => Raise e
  | inr (dataset_class, line, default_data_dir, img_h, img_w) =>
      let w := emit [Print line] w in
      let data_dir :=
        if bool_decide (data_dir a = "") then default_data_dir else data_dir a in
      let train_transform := get_train_augmentation img_h img_w in
      let val_transform := get_val_augmentation img_h img_w in
      let trainset := dataset_class data_dir "train" "train" train_transform in
      let valset := dataset_class data_dir "test" "val" val_transform in
      let model :=
        Dino2Seg_new (len (classes trainset)) img_h img_w (model_weights_dir a) in
      Ok ({| args := a;
             early_stopper := early_stopper;
             train_loader := DataLoader trainset (batch_size a);
             val_loader := DataLoader valset (batch_size a);
             model := model;
             criterion := CrossEntropyLoss class_weights 255;
             optimizer := AdamW model (lr a);
             metric := SegmentationMetric (len (classes trainset)) class_weights;
             best_pred := (-1)%Q |}, w)
  end.

Definition with_learner (m : Dino2Seg) (o : Optimizer) (t : Trainer) : Trainer :=
  {| args := args t; early_stopper := early_stopper t;
     train_loader := train_loader t; val_loader := val_loader t;
     model := m; criterion := criterion t; optimizer := o;
     metric := metric t; best_pred := best_pred t |}.

Definition with_metric (x : Metric) (t : Trainer) : Trainer :=
  {| args := args t; early_stopper := early_stopper t;
     train_loader := train_loader t; val_loader := val_loader t;
     model := model t; criterion := criterion t; optimizer := optimizer t;
     metric := x; best_pred := best_pred t |}.

Definition with_best_pred (x : Q) (t : Trainer) : Trainer :=
  {| args := args t; early_stopper := early_stopper t;
     train_loader := train_loader t; val_loader := val_loader t;
     model := model t; criterion := criterion t; optimizer := optimizer t;
     metric := metric t; best_pred := x |}.

Definition with_early_stopper (s : Stopper) (t : Trainer) : Trainer :=
  {| args := args t; early_stopper := s;
     train_loader := train_loader t; val_loader := val_loader t;
     model := model t; criterion := criterion t; optimizer := optimizer t;
     metric := metric t; best_pred := best_pred t |}.

(** ** [Trainer.train]: one batch *)

(** The two locals of [train] that live across batches and epochs. *)
Record Counters : Type := { iteration : Z; avg_loss : Q }.

Definition train_batch (i : Z) (st : Trainer * Counters * World)
    (b : Image * Target) : Trainer * Counters * World :=
  let '(t, c, w) := st in
  let '(images, targets) := b in
  let iteration := iteration c + 1 in
  let outputs := forward (model t) images in
  let loss := criterion t outputs targets in
  let '(o, m) :=
    backward_step (optimizer t) (model t) (criterion t) images targets in
  let t := with_learner m o t in
  let avg_loss := (avg_loss c + loss)%Q in
  let '(avg_loss, w) :=
    if iteration mod 100 =? 0 then
      (0%Q,
       emit [Print (RunningLoss i iteration (avg_loss / 100));
             AddScalar "training loss" (avg_loss / 100) iteration] w)
    else (avg_loss, w) in
  let w :=
    if iteration mod 500 =? 1 then
      emit [AddImage "pred" (decode_argmax outputs) iteration;
            AddImage "gt" (decode_target targets 0) iteration] w
    else w in
  (t, {| iteration := iteration; avg_loss := avg_loss |}, w).

(** ** [Trainer.validation] *)

(** The locals of [validation] that the batch loop assigns: the three
    statistics are unbound until the first batch has been seen. *)
Record ValVars : Type := {
  stats : option (Q * Q * Q);
  _preds : list Picture;
  _targets : list Picture;
}.

(** The body of [for i in range(pred.shape[0])]. *)
Definition collect (pred : Pred) (target : Target)
    (acc : list Picture * list Picture) (i : nat) : list Picture * list Picture :=
  if (length (fst acc) <? 64)%nat then
    (fst acc ++ [decode_pred pred i], snd acc ++ [decode_target target i])
  else acc.

Definition validation_batch (m : Dino2Seg) (st : Metric * ValVars)
    (b : Image * Target) : Metric * ValVars :=
  let '(image, target) := b in
  let '(outputs, pred) := infer_image m image in
  let metric := metric_update (fst st) outputs target in
  let pics :=
    fold_left (collect pred target) (seq 0 (batch_len pred))
      (_preds (snd st), _targets (snd st)) in
  (metric,
   {| stats := Some (metric_get metric);
      _preds := fst pics; _targets := snd pics |}).

(** The function has no [return] statement: a call that completes
    evaluates to [None]. *)
Definition validation (it e : Z) (t : Trainer) (w : World)
    : Trainer * World * result pyval :=
  let w := emit [Print Evaluating] w in
  let '(metric, v) :=
    fold_left (validation_batch (model t)) (val_loader t)
      (metric t, {| stats := None; _preds := []; _targets := [] |}) in
  let t := with_metric metric t in
  let _preds := make_grid (_preds v) 8 in
  let _targets := make_grid (_targets v) 8 in
  match stats v with
  | None => (t, w, Raise (UnboundLocalError "pixAcc"))
  | Some (pixAcc, mIoU, weighted_mIou) =>
      let new_pred := ((pixAcc + mIoU) / 2)%Q in
      let w :=
        emit [Print (Metrics pixAcc mIoU weighted_mIou);
              AddScalar "validation pixAcc" pixAcc it;
              AddScalar "validation mIoU" mIoU it;
              AddScalar "validation weighted mIoU" weighted_mIou it;
              AddImage "val_gt" _targets it;
              AddImage "val_pred" _preds it] w in
      let is_best := Qgtb new_pred (best_pred t) in
      let t := if is_best then with_best_pred new_pred t else t in
      let '(w, r) := save_checkpoint (model t) (args t) is_best w in
      match r with
      | inl e => (t, w, Raise e)
      | inr _ => (t, w, Ok PyNone)
      end
  end.

(** ** [Trainer.train]: the epoch loop *)

(** How [train] left its loop. *)
Inductive Outcome : Type :=
| Exhausted
| Stopped (i : Z)
| Raised (e : exn).

(** [range(n)] *)
Definition range (n : Z) : list Z := map Z.of_nat (seq 0 (Z.to_nat n)).

(** One pass through the body of [for i in range(args.epochs)]; the
    last component is [None] when the loop goes on to the next index. *)
Definition epoch (total i : Z) (t : Trainer) (c : Counters) (w : World)
    : Trainer * Counters * World * option Outcome :=
  let w := emit [Print Rule; Print (TrainingEpoch (i + 1) total)] w in
  let '(t, c, w) := fold_left (train_batch i) (train_loader t) (t, c, w) in
  let '(t, w, r) := validation (iteration c) i t w in
  match r with
  | inl e => (t, c, w, Some (Raised e))
  | inr val_metric =>
      match stopper_call (early_stopper t) val_metric with
      | inl e => (t, c, w, Some (Raised e))
      | inr s =>
          let t := with_early_stopper s t in
          if early_stop s then
            (t, c, emit [Print (EarlyStoppingAt (i + 1))] w, Some (Stopped i))
          else (t, c, w, None)
      end
  end.

Fixpoint epoch_loop (total : Z) (todo : list Z) (t : Trainer) (c : Counters)
    (w : World) : Trainer * Counters * World * Outcome :=
  match todo with
  | [] => (t, c, w, Exhausted)
  | i :: todo =>
      let '(t, c, w, o) := epoch total i t c w in
      match o with
      | Some out => (t, c, w, out)
      | None => epoch_loop total todo t c w
      end
  end.

Definition train (t : Trainer) (w : World)
    : Trainer * Counters * World * Outcome :=
  epoch_loop (epochs (args t)) (range (epochs (args t))) t
    {| iteration := 0; avg_loss := 0 |} w.

End Script.

(** ** Reading a trace *)

Section Traces.
Context `{C : Collaborators}.

(** The (value, step) pairs the writer received under one tag. *)
Fixpoint scalars (tag : string) (tr : list Event) : list (Q * Z) :=
  match tr with
  | [] => []
  | AddScalar tag' value step :: tr =>
      if bool_decide (tag' = tag) then (value, step) :: scalars tag tr
      else scalars tag tr
  | _ :: tr => scalars tag tr
  end.

(** The epoch numbers announced on standard output. *)
Fixpoint epochs_begun (tr : list Event) : list Z :=
  match tr with
  | [] => []
  | Print (TrainingEpoch number _) :: tr => number :: epochs_begun tr
  | _ :: tr => epochs_begun tr
  end.

(** The file-system effects, with everything else dropped. *)
Fixpoint fs_effects (tr : list Event) : list Event :=
  match tr with
  | [] => []
  | MakeDirs d :: tr => MakeDirs d :: fs_effects tr
  | TorchSave o f :: tr => TorchSave o f :: fs_effects tr
  | CopyFile s d :: tr => CopyFile s d :: fs_effects tr
  | _ :: tr => fs_effects tr
  end.

End Traces.

(** The iterations in [(from, from + n)] that are divisible by 100. *)
Definition hundreds (from : Z) (n : nat) : list Z :=
  filter (fun k => k mod 100 = 0) (map (fun j => from + Z.of_nat j) (seq 1 n)).

(** ** The early-stopping policy *)

(** Modelled from the spec: [util/early_stopping.py], the class behind
    [EarlyStopping(patience=10, delta=0.01, verbose=True)], is not among
    the sources.  The state machine below follows the design's wording:
    two states, a patience count [P], a minimum-improvement delta [D],
    and one transition per observed score. *)
Module Policy.

Inductive State : Type := RUNNING | STOPPED.

Record t : Type := {
  patience : Z;
  delta : Q;
  best : option Q;
  counter : Z;
  state : State;
}.

Definition init (P : Z) (D : Q) : t :=
  {| patience := P; delta := D; best := None; counter := 0; state := RUNNING |}.

(** "No prior best recorded, or the new score exceeds the recorded best
    by more than D." *)
Definition improves (p : t) (score : Q) : bool :=
  match best p with
  | None => true
  | Some b => Qgtb score (b + delta p)
  end.

(** One observation.  STOPPED is terminal: no branch leaves it. *)
Definition observe (p : t) (score : Q) : t :=
  if improves p score then
    {| patience := patience p; delta := delta p; best := Some score;
       counter := 0; state := state p |}
  else
    let n := counter p + 1 in
    {| patience := patience p; delta := delta p; best := best p;
       counter := n;
       state := if n >? patience p then STOPPED else state p |}.

(** The state signalled after each score of a sequence. *)
Fixpoint signals (p : t) (scores : list Q) : list State :=
  match scores with
  | [] => []
  | s :: scores => state (observe p s) :: signals (observe p s) scores
  end.

Fixpoint strictly_increasing (scores : list Q) : Prop :=
  match scores with
  | a :: (b :: _) as rest => (a < b)%Q /\ strictly_increasing rest
  | _ => True
  end.

(** Each score exceeds its predecessor by more than [D]. *)
Fixpoint increasing_by_more_than (D : Q) (scores : list Q) : Prop :=
  match scores with
  | a :: (b :: _) as rest => (a + D < b)%Q /\ increasing_by_more_than D rest
  | _ => True
  end.

End Policy.

(** ** Stand-ins for the collaborators *)

(** A miniature of every collaborator, small enough to run: images and
    targets are integers, the network is one integer weight that every
    optimizer step increments, and the metric counts hits. *)
Module Demo.

Record dataset_t : Type := {
  ds_classes : list string;
  ds_batches : list (Z * Z);
}.

Definition six_labels : list string :=
  ["BACKGROUND"; "HEAD"; "BASEPLATE"; "PREVIOUS_PART"; "CURRENT_PART";
   "WELD_FLASH"].

Definition batches_of (split : string) : list (Z * Z) :=
  if bool_decide (split = "train") then [(1, 1); (2, 0); (3, 1)]
  else [(1, 1); (3, 1)].

(** An adapter reporting forty classes, as NYUv2 labellings do. *)
Definition nyu (data_dir split mode : string) (tr : unit) : dataset_t :=
  {| ds_classes := repeat "nyu" 40; ds_batches := batches_of split |}.

Definition ml4ded (data_dir split mode : string) (tr : unit) : dataset_t :=
  {| ds_classes := six_labels; ds_batches := batches_of split |}.

(** The network answers 0 until it has taken four optimizer steps and
    the parity of the image afterwards. *)
Definition predict (weight image : Z) : Z :=
  if weight <? 4 then 0 else image mod 2.

Definition loss_of (out target : Z) : Q :=
  if out =? target then 0%Q else 1%Q.

(** Hits and pixels seen; all three statistics are the hit rate. *)
Definition hit_rate (m : Z * Z) : Q * Q * Q :=
  let r := Qmake (fst m) (Z.to_pos (snd m)) in (r, r, r).

Definition count (m : Z * Z) (out target : Z) : Z * Z :=
  (if out =? target then fst m + 1 else fst m, snd m + 1).

(** A stopper that counts its calls, whatever it is handed, and
    signals once the count exceeds the patience. *)
Definition stopper_t : Type := Z * Z.

Definition collaborators : Collaborators :=
  {| Image := Z; Target := Z; Output := Z; Pred := Z; Picture := Z;
     StateDict := Z; Transform := unit;
     expanduser := fun p => p;
     root_path := "/repo";
     get_train_augmentation := fun _ _ => tt;
     get_val_augmentation := fun _ _ => tt;
     Dataset := dataset_t;
     NYUSDv2SegDataset := nyu;
     ML4DEDSegmentationDataset := ml4ded;
     classes := ds_classes;
     DataLoader := fun ds _ => ds_batches ds;
     SegLabels := six_labels;
     Dino2Seg := Z;
     Dino2Seg_new := fun _ _ _ _ => 0;
     seg_head_state_dict := fun weight => weight;
     forward := predict;
     infer_image := fun weight image => (predict weight image, predict weight image);
     CrossEntropyLoss := fun _ _ => loss_of;
     Optimizer := unit;
     AdamW := fun _ _ => tt;
     backward_step := fun o weight _ _ _ => (o, weight + 1);
     Metric := Z * Z;
     SegmentationMetric := fun _ _ => (0, 0);
     metric_update := count;
     metric_get := hit_rate;
     Stopper := stopper_t;
     EarlyStopping := fun P _ _ => (P, 0);
     stopper_call := fun s _ => Ok (fst s, snd s + 1);
     early_stop := fun s => snd s >? fst s;
     batch_len := fun _ => 1%nat;
     decode_pred := fun p _ => p;
     decode_target := fun t _ => t;
     decode_argmax := fun o => o;
     make_grid := fun l _ => Z.of_nat (length l) |}.

Definition empty_world : World (H := collaborators) :=
  {| files := ∅; dirs := ∅; trace := [] |}.

(** The trainer the constructor builds from the default arguments. *)
Definition trainer : Trainer (C := collaborators) :=
  Build_Trainer (C := collaborators)
    parse_args_defaults            (* args *)
    ((10, 0) : stopper_t)          (* early_stopper *)
    (batches_of "train")           (* train_loader *)
    (batches_of "test")            (* val_loader *)
    0                              (* model *)
    loss_of                        (* criterion *)
    tt                             (* optimizer *)
    ((0, 0) : Z * Z)               (* metric *)
    (-1)%Q                         (* best_pred *).

Definition greeted_world : World (H := collaborators) :=
  {| files := ∅; dirs := ∅; trace := [Print (UsingDataset "ML4DED")] |}.

Definition with_dataset (name : string) (a : Args) : Args :=
  {| dataset := name; data_dir := data_dir a;
     model_weights_dir := model_weights_dir a; base_size := base_size a;
     crop_size := crop_size a; batch_size := batch_size a; epochs := epochs a;
     lr := lr a; save_dir := save_dir a; device := device a |}.

End Demo.


(** ** Vocabulary for the statements *)

Section Vocabulary.
Context `{C : Collaborators}.

(** What one validation batch does to the accumulator. *)
Definition feed (m : Dino2Seg) (x : Metric) (b : Image * Target) : Metric :=
  metric_update x (fst (infer_image m (fst b))) (snd b).

(** The accumulator after a pass over the validation batches. *)
Definition metric_after (m : Dino2Seg) (batches : list (Image * Target))
    (x : Metric) : Metric :=
  fold_left (feed m) batches x.

(** The locals of [validation] when its batch loop ends. *)
Definition val_vars (t : Trainer) : ValVars :=
  snd (fold_left (validation_batch (model t)) (val_loader t)
         (metric t, {| stats := None; _preds := []; _targets := [] |})).

(** The mean of the first two statistics of an accumulator. *)
Definition fitness (x : Metric) : Q :=
  let '(pixAcc, mIoU, _) := metric_get x in ((pixAcc + mIoU) / 2)%Q.

(** What [validation] prints and logs once its batch loop is over. *)
Definition validation_report (x : Metric) (v : ValVars) (it : Z) : list Event :=
  let '(pixAcc, mIoU, weighted_mIou) := metric_get x in
  [Print (Metrics pixAcc mIoU weighted_mIou);
   AddScalar "validation pixAcc" pixAcc it;
   AddScalar "validation mIoU" mIoU it;
   AddScalar "validation weighted mIoU" weighted_mIou it;
   AddImage "val_gt" (make_grid (_targets v) 8) it;
   AddImage "val_pred" (make_grid (_preds v) 8) it].

(** The effects that took the world from [w] to [w']. *)
Definition new_events (w w' : World) : list Event :=
  drop (length (trace w)) (trace w').

(** The paths of the two checkpoint files. *)
Definition latest_path (a : Args) : string :=
  path_join (expanduser (save_dir a)) latest_name.
Definition best_path (a : Args) : string :=
  path_join (expanduser (save_dir a)) best_name.

(** The file-system effects of one checkpoint write, the directory
    check apart. *)
Definition checkpoint_effects (m : Dino2Seg) (a : Args) (is_best : bool)
    : list Event :=
  TorchSave (seg_head_state_dict m) (latest_path a)
  :: (if is_best then [CopyFile (latest_path a) (best_path a)] else []).

(** The directory check of [save_checkpoint]. *)
Definition directory_effects (a : Args) (w : World) : list Event :=
  if negb (path_exists (expanduser (save_dir a)) w)
  then [MakeDirs (expanduser (save_dir a))] else [].

(** The label names that have a [case] in the weight table. *)
Definition handled (name : string) : bool :=
  bool_decide (name ∈ ["BACKGROUND"; "HEAD"; "BASEPLATE"; "PREVIOUS_PART";
                       "CURRENT_PART"; "WELD_FLASH"]).

(** The stored best after a history of fitness scores: the sentinel,
    replaced by every score strictly greater than what is stored. *)
Definition best_of (history : list Q) : Q :=
  fold_left (fun b s => if Qgtb s b then s else b) history (-1)%Q.

(** [observed history t]: in the run that led to the trainer state [t],
    validation has produced exactly the fitness scores [history], oldest
    first.  The rules are the assignments to [self] in the script. *)
Inductive observed : list Q -> Trainer -> Prop :=
| observed_init a w t w' :
    Trainer_init a w = Ok (t, w') -> observed [] t
| observed_train_batch history t i c w b :
    observed history t ->
    observed history (fst (fst (train_batch i (t, c, w) b)))
| observed_validation history t it e w :
    observed history t ->
    snd (validation it e t w) = Ok PyNone ->
    observed (history ++ [fitness (metric (fst (fst (validation it e t w))))])
      (fst (fst (validation it e t w)))
| observed_early_stopper history t s :
    observed history t -> observed history (with_early_stopper s t).

End Vocabulary.

Section TrainingVocabulary.
Context `{C : Collaborators}.

(** The loss of one batch under the current weights. *)
Definition batch_loss (t : Trainer) (b : Image * Target) : Q :=
  criterion t (forward (model t) (fst b)) (snd b).

(** What the iteration numbered [n] prints and logs about the running
    loss, [acc] being the accumulator with this batch's loss added. *)
Definition loss_events (i n : Z) (acc : Q) : list Event :=
  if n mod 100 =? 0 then
    [Print (RunningLoss i n (acc / 100)); AddScalar "training loss" (acc / 100) n]
  else [].

(** The sample pictures the iteration numbered [n] logs. *)
Definition image_events (n : Z) (t : Trainer) (b : Image * Target) : list Event :=
  if n mod 500 =? 1 then
    [AddImage "pred" (decode_argmax (forward (model t) (fst b))) n;
     AddImage "gt" (decode_target (snd b) 0) n]
  else [].

(** Two trainer states that differ at most in the network and the
    optimizer. *)
Definition same_but_learner (t t' : Trainer) : Prop :=
  args t' = args t /\ early_stopper t' = early_stopper t
  /\ train_loader t' = train_loader t /\ val_loader t' = val_loader t
  /\ criterion t' = criterion t /\ metric t' = metric t
  /\ best_pred t' = best_pred t.

End TrainingVocabulary.

Section RunVocabulary.
Context `{C : Collaborators}.

(** The parts of a trainer that validation leaves alone. *)
Definition same_but_scores (t t' : Trainer) : Prop :=
  args t' = args t /\ early_stopper t' = early_stopper t
  /\ train_loader t' = train_loader t /\ val_loader t' = val_loader t
  /\ model t' = model t /\ criterion t' = criterion t
  /\ optimizer t' = optimizer t.

(** One optimizer round on a batch, and a pass over the training
    batches. *)
Definition learn (crit : Output -> Target -> Q)
    (st : Optimizer * Dino2Seg) (b : Image * Target) : Optimizer * Dino2Seg :=
  backward_step (fst st) (snd st) crit (fst b) (snd b).

Definition train_pass (crit : Output -> Target -> Q)
    (batches : list (Image * Target)) (st : Optimizer * Dino2Seg)
    : Optimizer * Dino2Seg :=
  fold_left (learn crit) batches st.

(** Optimizer, network and metric accumulator of a trainer. *)
Definition learner_and_metric (t : Trainer) : Optimizer * Dino2Seg * Metric :=
  (optimizer t, model t, metric t).

(** What one epoch does to them: a pass over the training batches, then
    the validation batches fed to the accumulator as it stands. *)
Definition one_epoch (crit : Output -> Target -> Q)
    (tr va : list (Image * Target)) (s : Optimizer * Dino2Seg * Metric)
    : Optimizer * Dino2Seg * Metric :=
  let st := train_pass crit tr (fst s) in
  (st, metric_after (snd st) va (snd s)).

Definition after_epochs (crit : Output -> Target -> Q)
    (tr va : list (Image * Target)) (k : nat)
    (s : Optimizer * Dino2Seg * Metric) : Optimizer * Dino2Seg * Metric :=
  Nat.iter k (one_epoch crit tr va) s.

(** The (output, target) pairs the accumulator is fed during the
    validation pass of each of the first [k] epochs, oldest first. *)
Definition validation_pairs (m : Dino2Seg) (va : list (Image * Target))
    : list (Output * Target) :=
  map (fun b => (fst (infer_image m (fst b)), snd b)) va.

Definition all_validation_pairs (crit : Output -> Target -> Q)
    (tr va : list (Image * Target)) (k : nat)
    (s : Optimizer * Dino2Seg * Metric) : list (Output * Target) :=
  flat_map
    (fun j => validation_pairs (snd (fst (after_epochs crit tr va (S j) s))) va)
    (seq 0 k).

(** The accumulator after a list of updates. *)
Definition updated (x : Metric) (pairs : list (Output * Target)) : Metric :=
  fold_left (fun x p => metric_update x (fst p) (snd p)) pairs x.

(** The stopper after [n] calls with [None], if none of them raised. *)
Fixpoint stopper_after (n : nat) (s : Stopper) : result Stopper :=
  match n with
  | O => Ok s
  | S n =>
      match stopper_call s PyNone with
      | inl e => Raise e
      | inr s' => stopper_after n s'
      end
  end.

(** How many epochs a stopper lets a budget run, and how the loop ends,
    when every consultation hands it [None]. *)
Fixpoint schedule (todo : list Z) (s : Stopper) : nat * Outcome :=
  match todo with
  | [] => (O, Exhausted)
  | i :: todo =>
      match stopper_call s PyNone with
      | inl e => (1%nat, Raised e)
      | inr s' =>
          if early_stop s' then (1%nat, Stopped i)
          else (S (fst (schedule todo s')), snd (schedule todo s'))
      end
  end.

End RunVocabulary.

Section EpochVocabulary.
Context `{C : Collaborators}.

(** Whether a pass through the loop body ended in [break]. *)
Definition broke (o : option Outcome) : bool :=
  match o with
  | Some (Stopped _) => true
  | _ => false
  end.

(** The line printed on [break]. *)
Definition stop_events (i : Z) (o : option Outcome) : list Event :=
  if broke o then [Print (EarlyStoppingAt (i + 1))] else [].

End EpochVocabulary.

Section ReportVocabulary.
Context `{C : Collaborators}.

(** The three statistics [metric.get()] returns. *)
Definition pixAcc_of (s : Q * Q * Q) : Q := fst (fst s).
Definition mIoU_of (s : Q * Q * Q) : Q := snd (fst s).
Definition weighted_mIou_of (s : Q * Q * Q) : Q := snd s.

(** One statistic of the accumulator as it stands after each of the
    first [k] epochs, paired with the global iteration at which the
    epoch ends. *)
Definition reports (sel : Q * Q * Q -> Q) (crit : Output -> Target -> Q)
    (tr va : list (Image * Target)) (s : Optimizer * Dino2Seg * Metric)
    (k : nat) : list (Q * Z) :=
  map (fun j =>
         (sel (metric_get (snd (after_epochs crit tr va (S j) s))),
          Z.of_nat (S j * length tr)))
      (seq 0 k).

End ReportVocabulary.

(** ** Further vocabulary *)

(** The iterations in [(from, from + n)] that leave remainder 1 modulo
    500. *)
Definition sample_steps (from : Z) (n : nat) : list Z :=
  filter (fun k => k mod 500 = 1) (map (fun j => from + Z.of_nat j) (seq 1 n)).

(** The stored best after a history of fitness scores, from any
    starting value. *)
Definition best_from (b : Q) (history : list Q) : Q :=
  fold_left (fun b s => if Qgtb s b then s else b) history b.

Section FurtherVocabulary.
Context `{C : Collaborators}.

(** The steps at which the writer received a picture under a tag. *)
Fixpoint image_steps (tag : string) (tr : list Event) : list Z :=
  match tr with
  | [] => []
  | AddImage tag' _ step :: tr =>
      if bool_decide (tag' = tag) then step :: image_steps tag tr
      else image_steps tag tr
  | _ :: tr => image_steps tag tr
  end.

(** The objects handed to [torch.save], in order. *)
Fixpoint saved (tr : list Event) : list StateDict :=
  match tr with
  | [] => []
  | TorchSave obj _ :: tr => obj :: saved tr
  | _ :: tr => saved tr
  end.

(** The weight of a label that has a case in the weight table. *)
Definition weight_of (name : string) : Q :=
  if bool_decide (name = "CURRENT_PART") then 0.5%Q else 0.1%Q.

(** The trainer after one batch, and the losses of a run of batches,
    each under the weights the batches before it left. *)
Definition after_batch (t : Trainer) (b : Image * Target) : Trainer :=
  let step :=
    backward_step (optimizer t) (model t) (criterion t) (fst b) (snd b) in
  with_learner (snd step) (fst step) t.

Fixpoint losses_of (t : Trainer) (batches : list (Image * Target)) : list Q :=
  match batches with
  | [] => []
  | b :: batches => batch_loss t b :: losses_of (after_batch t b) batches
  end.

(** The sum as the loop forms it: one addition per loss, in order. *)
Definition accumulate (acc : Q) (losses : list Q) : Q :=
  fold_left Qplus losses acc.

(** Every prediction of a validation pass decoded to a picture, and
    every target, in the order the batch loop meets them. *)
Definition decoded_preds (m : Dino2Seg) (va : list (Image * Target))
    : list Picture :=
  flat_map
    (fun b =>
       let pred := snd (infer_image m (fst b)) in
       map (decode_pred pred) (seq 0 (batch_len pred)))
    va.

Definition decoded_targets (m : Dino2Seg) (va : list (Image * Target))
    : list Picture :=
  flat_map
    (fun b =>
       let pred := snd (infer_image m (fst b)) in
       map (decode_target (snd b)) (seq 0 (batch_len pred)))
    va.

(** Network, head parameters and fitness at the end of epoch [j + 1] of
    a run. *)
Definition model_after (crit : Output -> Target -> Q)
    (tr va : list (Image * Target)) (s : Optimizer * Dino2Seg * Metric)
    (j : nat) : Dino2Seg :=
  snd (fst (after_epochs crit tr va (S j) s)).

Definition fitness_after (crit : Output -> Target -> Q)
    (tr va : list (Image * Target)) (s : Optimizer * Dino2Seg * Metric)
    (j : nat) : Q :=
  fitness (snd (after_epochs crit tr va (S j) s)).

(** The stored best score and the content of the "best" file after [k]
    epochs: both are replaced together, at every epoch whose fitness is
    strictly greater than the stored best. *)
Fixpoint best_record (crit : Output -> Target -> Q)
    (tr va : list (Image * Target)) (s : Optimizer * Dino2Seg * Metric)
    (start : Q * option StateDict) (k : nat) : Q * option StateDict :=
  match k with
  | O => start
  | S k =>
      let r := best_record crit tr va s start k in
      if Qgtb (fitness_after crit tr va s k) (fst r) then
        (fitness_after crit tr va s k,
         Some (seg_head_state_dict (model_after crit tr va s k)))
      else r
  end.

(** The checkpoint effects of the first [k] epochs of a run. *)
Definition run_checkpoints (crit : Output -> Target -> Q)
    (tr va : list (Image * Target)) (s : Optimizer * Dino2Seg * Metric)
    (a : Args) (start : Q * option StateDict) (k : nat) : list Event :=
  flat_map
    (fun j =>
       checkpoint_effects (model_after crit tr va s j) a
         (Qgtb (fitness_after crit tr va s j)
            (fst (best_record crit tr va s start j))))
    (seq 0 k).

(** [__main__], after [parse_args]: the device is forced, the trainer
    is built, and [train] runs. *)
Definition with_device (d : string) (a : Args) : Args :=
  {| dataset := dataset a; data_dir := data_dir a;
     model_weights_dir := model_weights_dir a; base_size := base_size a;
     crop_size := crop_size a; batch_size := batch_size a; epochs := epochs a;
     lr := lr a; save_dir := save_dir a; device := d |}.

Definition main (a : Args) (w : World) : World * Outcome :=
  let a := with_device "cuda" a in
  match Trainer_init a w with
  | inl e => (w, Raised e)
  | inr (trainer, w) =>
      let '(_, _, w, out) := train trainer w in (w, out)
  end.

End FurtherVocabulary.

(** * Properties *)

(** ** Image rounding *)

Lemma make_divisible_default val :
  make_divisible_by val patch_size = Ok (make_divisible val).
Proof. reflexivity. Qed.

Lemma make_divisible_multiple val : (patch_size | make_divisible val).
Proof.
  unfold make_divisible. exists (val / patch_size).
  pose proof (Z.div_mod val patch_size) as H.
  unfold patch_size in *. lia.
Qed.

Lemma make_divisible_le val : make_divisible val <= val.
Proof.
  unfold make_divisible, patch_size.
  pose proof (Z.mod_pos_bound val 14). lia.
Qed.

Lemma make_divisible_greatest val m :
  (patch_size | m) -> m <= val -> m <= make_divisible val.
Proof.
  unfold make_divisible, patch_size. intros [k ->] Hle.
  pose proof (Z.mod_pos_bound val 14 ltac:(lia)) as Hb.
  pose proof (Z.div_mod val 14 ltac:(lia)) as Hd.
  assert (k <= val / 14) by (apply Z.div_le_lower_bound; lia).
  lia.
Qed.

(** C8: for a nonnegative dimension, [make_divisible] with the patch
    size 14 gives the largest multiple of 14 that does not exceed the
    dimension; the dimensions (1072, 608) become (1064, 602). *)
Theorem make_divisible_largest_multiple (v : Z) (Hv : 0 <= v) :
  make_divisible_by v 14 = Ok (make_divisible v)
  /\ 0 <= make_divisible v <= v
  /\ (14 | make_divisible v)
  /\ (forall m, (14 | m) -> m <= v -> m <= make_divisible v)
  /\ (make_divisible 1072, make_divisible 608) = (1064, 602).
Proof.
  split; [reflexivity|].
  split.
  { split; [|apply make_divisible_le].
    unfold make_divisible, patch_size.
    pose proof (Z.mod_le v 14). lia. }
  split; [apply make_divisible_multiple|].
  split; [apply make_divisible_greatest|reflexivity].
Qed.

Lemma make_divisible_largest_multiple_witness :
  0 <= 1072
  /\ make_divisible_by 1072 14 = Ok 1064
  /\ (14 | make_divisible 1072).
Proof.
  destruct (make_divisible_largest_multiple 1072 ltac:(lia)) as (H1 & _ & H3 & _).
  split; [lia|]. split; [exact H1|exact H3].
Defined.

(** ** Comparison on rationals *)

Lemma Qgtb_true x y : Qgtb x y = true <-> (y < x)%Q.
Proof.
  unfold Qgtb. rewrite negb_true_iff, <- not_true_iff_false, Qle_bool_iff.
  split; [apply Qnot_le_lt|apply Qlt_not_le].
Qed.

Lemma Qgtb_false x y : Qgtb x y = false <-> (x <= y)%Q.
Proof. unfold Qgtb. rewrite negb_false_iff. apply Qle_bool_iff. Qed.

(** ** The checkpoint writer *)

Section Checkpoint.
Context `{C : Collaborators}.

Lemma latest_best_distinct (d : string) :
  path_join d latest_name ≠ path_join d best_name.
Proof.
  unfold path_join. cbn [String.prefix latest_name best_name].
  change (String.prefix "/" latest_name) with false.
  change (String.prefix "/" best_name) with false. cbn iota.
  destruct (bool_decide (d = "")); [discriminate|].
  destruct (ends_with_slash d); intros H.
  - apply (String.app_inj d) in H. discriminate.
  - apply (String.app_inj d) in H. discriminate.
Qed.

Lemma save_checkpoint_latest_only model a w :
  save_checkpoint model a false w =
    (torch_save (seg_head_state_dict model)
       (path_join (expanduser (save_dir a)) latest_name)
       (if negb (path_exists (expanduser (save_dir a)) w)
        then makedirs (expanduser (save_dir a)) w else w), Ok tt).
Proof. reflexivity. Qed.

Lemma files_after_directory_check d (w : World) :
  files (if negb (path_exists d w) then makedirs d w else w) = files w.
Proof. destruct (negb _); reflexivity. Qed.

Lemma save_checkpoint_best model a w :
  exists w',
    save_checkpoint model a true w = (w', Ok tt)
    /\ files w' =
         <[path_join (expanduser (save_dir a)) best_name :=
             seg_head_state_dict model]>
           (<[path_join (expanduser (save_dir a)) latest_name :=
                seg_head_state_dict model]> (files w))
    /\ dirs w' = dirs (if negb (path_exists (expanduser (save_dir a)) w)
                       then makedirs (expanduser (save_dir a)) w else w).
Proof.
  unfold save_checkpoint, copyfile.
  rewrite bool_decide_eq_false_2 by apply latest_best_distinct.
  cbn [torch_save files]. rewrite lookup_insert_eq.
  eexists. split; [reflexivity|]. cbn [files dirs].
  rewrite files_after_directory_check. split; reflexivity.
Qed.

Lemma save_checkpoint_succeeds model a is_best w :
  snd (save_checkpoint model a is_best w) = Ok tt.
Proof.
  destruct is_best.
  - destruct (save_checkpoint_best model a w) as (w' & -> & _). reflexivity.
  - reflexivity.
Qed.


End Checkpoint.

(** ** The early-stopping policy *)

Module PolicyFacts.
Import Policy.

Lemma improves_iff p score :
  improves p score = true <->
  best p = None \/ exists b, best p = Some b /\ (b + delta p < score)%Q.
Proof.
  unfold improves. destruct (best p) as [b|].
  - rewrite Qgtb_true. split.
    + intros H. right. by exists b.
    + intros [H|(b' & [= <-] & H)]; [discriminate|exact H].
  - split; [by left|reflexivity].
Qed.

Lemma observe_improving p score :
  improves p score = true ->
  observe p score =
    {| patience := patience p; delta := delta p; best := Some score;
       counter := 0; state := state p |}.
Proof. unfold observe. by intros ->. Qed.

Lemma observe_not_improving p score :
  improves p score = false ->
  observe p score =
    {| patience := patience p; delta := delta p; best := best p;
       counter := counter p + 1;
       state := if counter p + 1 >? patience p then STOPPED else state p |}.
Proof. unfold observe. by intros ->. Qed.

(** STOPPED is terminal. *)
Lemma stopped_is_terminal p score :
  state p = STOPPED -> state (observe p score) = STOPPED.
Proof.
  intros H. unfold observe.
  destruct (improves p score); cbn; [exact H|].
  by destruct (_ >? _).
Qed.

Lemma steady_improvement_keeps_running scores : forall p b,
  state p = RUNNING -> best p = Some b ->
  increasing_by_more_than (delta p) (b :: scores) ->
  Forall (eq RUNNING) (signals p scores).
Proof.
  induction scores as [|s scores IH]; intros p b Hrun Hbest Hinc.
  - constructor.
  - destruct Hinc as [Hstep Hrest].
    assert (Himp : improves p s = true).
    { apply improves_iff. right. by exists b. }
    cbn [signals]. rewrite (observe_improving _ _ Himp). cbn [state].
    constructor; [by rewrite Hrun|].
    apply (IH _ s); [exact Hrun|reflexivity|exact Hrest].
Qed.

End PolicyFacts.

(** C2, as the policy of the design behaves: from RUNNING, a score that
    finds no recorded best, or exceeds it by more than D, becomes the
    best, zeroes the counter and leaves the state RUNNING; any other
    score increments the counter, and the state is then STOPPED exactly
    when the counter exceeds P.  With patience 2 and delta 0.01 the
    scores 0.50, 0.50, 0.50, 0.50 signal STOPPED at the third repeat and
    not before.  A sequence in which every score exceeds its predecessor
    by more than D never signals STOPPED. *)
Theorem early_stopping_policy_behaviour :
  (forall p score, Policy.state p = Policy.RUNNING ->
     (Policy.improves p score = true <->
        Policy.best p = None
        \/ exists b, Policy.best p = Some b /\ (b + Policy.delta p < score)%Q)
     /\ (Policy.improves p score = true ->
           Policy.best (Policy.observe p score) = Some score
           /\ Policy.counter (Policy.observe p score) = 0
           /\ Policy.state (Policy.observe p score) = Policy.RUNNING)
     /\ (Policy.improves p score = false ->
           Policy.best (Policy.observe p score) = Policy.best p
           /\ Policy.counter (Policy.observe p score) = Policy.counter p + 1
           /\ (Policy.state (Policy.observe p score) = Policy.STOPPED <->
                 Policy.counter p + 1 > Policy.patience p)))
  /\ Policy.signals (Policy.init 2 0.01) [0.50; 0.50; 0.50; 0.50]%Q =
       [Policy.RUNNING; Policy.RUNNING; Policy.RUNNING; Policy.STOPPED]
  /\ (forall P D scores,
        Policy.increasing_by_more_than D scores ->
        Forall (eq Policy.RUNNING) (Policy.signals (Policy.init P D) scores)).
Proof.
  split; [|split].
  - intros p score Hrun. split; [apply PolicyFacts.improves_iff|]. split.
    + intros H. rewrite (PolicyFacts.observe_improving _ _ H). by cbn.
    + intros H. rewrite (PolicyFacts.observe_not_improving _ _ H). cbn.
      split; [reflexivity|]. split; [reflexivity|].
      rewrite Hrun. destruct (Z.gtb_spec (Policy.counter p + 1) (Policy.patience p)).
      * split; [lia|reflexivity].
      * split; [discriminate|lia].
  - reflexivity.
  - intros P D [|s scores] Hinc; [constructor|].
    cbn [Policy.signals].
    assert (Himp : Policy.improves (Policy.init P D) s = true) by reflexivity.
    rewrite (PolicyFacts.observe_improving _ _ Himp). cbn [Policy.state Policy.init].
    constructor; [reflexivity|].
    apply (PolicyFacts.steady_improvement_keeps_running scores _ s);
      [reflexivity|reflexivity|exact Hinc].
Qed.

(** C2, the clause on strictly increasing sequences: these scores are
    strictly increasing, yet with patience 2 and delta 0.01 no step is
    an improvement by more than delta, and the fourth score signals
    STOPPED. *)
Lemma strictly_increasing_scores_can_stop :
  Policy.strictly_increasing [0.500; 0.501; 0.502; 0.503]%Q
  /\ Policy.signals (Policy.init 2 0.01) [0.500; 0.501; 0.502; 0.503]%Q =
       [Policy.RUNNING; Policy.RUNNING; Policy.RUNNING; Policy.STOPPED]
  /\ ~ (forall P D scores,
          Policy.strictly_increasing scores ->
          Forall (eq Policy.RUNNING) (Policy.signals (Policy.init P D) scores)).
Proof.
  assert (Hinc : Policy.strictly_increasing [0.500; 0.501; 0.502; 0.503]%Q).
  { cbn. repeat split; reflexivity. }
  assert (Hsig : Policy.signals (Policy.init 2 0.01) [0.500; 0.501; 0.502; 0.503]%Q =
       [Policy.RUNNING; Policy.RUNNING; Policy.RUNNING; Policy.STOPPED])
    by reflexivity.
  split; [exact Hinc|]. split; [exact Hsig|].
  intros H. specialize (H 2 0.01%Q _ Hinc). rewrite Hsig in H.
  rewrite !Forall_cons in H. destruct H as (_ & _ & _ & H & _). discriminate.
Qed.

(** ** The validation pass *)

Section Validation.
Context `{C : Collaborators}.

Lemma validation_batch_metric m x v b :
  fst (validation_batch m (x, v) b) = feed m x b.
Proof.
  unfold validation_batch, feed. destruct b as [image target]. cbn [fst snd].
  destruct (infer_image m image). reflexivity.
Qed.

Lemma validation_batch_stats m x v b :
  stats (snd (validation_batch m (x, v) b)) = Some (metric_get (feed m x b)).
Proof.
  unfold validation_batch, feed. destruct b as [image target]. cbn [fst snd].
  destruct (infer_image m image). reflexivity.
Qed.

Lemma validation_fold_metric m batches x v :
  fst (fold_left (validation_batch m) batches (x, v)) = metric_after m batches x.
Proof.
  revert x v. induction batches as [|b batches IH]; intros x v; [reflexivity|].
  cbn [fold_left metric_after].
  destruct (validation_batch m (x, v) b) as [x' v'] eqn:E.
  rewrite IH. unfold metric_after. f_equal.
  change x' with (fst (x', v')). rewrite <- E. apply validation_batch_metric.
Qed.

Lemma validation_fold_stats m batches x v :
  stats (snd (fold_left (validation_batch m) batches (x, v))) =
    match batches with
    | [] => stats v
    | _ => Some (metric_get (metric_after m batches x))
    end.
Proof.
  revert x v. induction batches as [|b batches IH]; intros x v; [reflexivity|].
  cbn [fold_left].
  destruct (validation_batch m (x, v) b) as [x' v'] eqn:E.
  assert (Hx : x' = feed m x b).
  { change x' with (fst (x', v')). rewrite <- E. apply validation_batch_metric. }
  assert (Hv : stats v' = Some (metric_get (feed m x b))).
  { change v' with (snd (x', v')). rewrite <- E. apply validation_batch_stats. }
  rewrite IH. destruct batches as [|b' batches]; [exact Hv|].
  subst x'. reflexivity.
Qed.

(** With at least one validation batch the pass runs to its end, and
    what it leaves behind is a function of the accumulator. *)
Lemma validation_unfold it e t w :
  val_loader t ≠ [] ->
  validation it e t w =
    (let x := metric_after (model t) (val_loader t) (metric t) in
     let is_best := Qgtb (fitness x) (best_pred t) in
     (if is_best then with_best_pred (fitness x) (with_metric x t)
      else with_metric x t,
      fst (save_checkpoint (model t) (args t) is_best
             (emit (validation_report x (val_vars t) it)
                (emit [Print Evaluating] w))),
      Ok PyNone)).
Proof.
  intros Hne. unfold validation, val_vars.
  pose proof (validation_fold_metric (model t) (val_loader t) (metric t)
    {| stats := None; _preds := []; _targets := [] |}) as Hm.
  pose proof (validation_fold_stats (model t) (val_loader t) (metric t)
    {| stats := None; _preds := []; _targets := [] |}) as Hs.
  destruct (fold_left _ (val_loader t) _) as [x v]. cbn [fst snd] in *.
  destruct (val_loader t) as [|b bs] eqn:Hl; [congruence|].
  rewrite Hs. subst x. cbv zeta.
  unfold fitness, validation_report.
  destruct (metric_get _) as [[pixAcc mIoU] weighted_mIou].
  set (is_best := Qgtb _ _).
  assert (Hmodel : forall y, model (if is_best then with_best_pred y
            (with_metric (metric_after (model t) (b :: bs) (metric t)) t)
            else with_metric (metric_after (model t) (b :: bs) (metric t)) t)
          = model t) by (intros; destruct is_best; reflexivity).
  assert (Hargs : forall y, args (if is_best then with_best_pred y
            (with_metric (metric_after (model t) (b :: bs) (metric t)) t)
            else with_metric (metric_after (model t) (b :: bs) (metric t)) t)
          = args t) by (intros; destruct is_best; reflexivity).
  rewrite Hmodel, Hargs.
  pose proof (save_checkpoint_succeeds (model t) (args t) is_best
    (emit [Print (Metrics pixAcc mIoU weighted_mIou);
           AddScalar "validation pixAcc" pixAcc it;
           AddScalar "validation mIoU" mIoU it;
           AddScalar "validation weighted mIoU" weighted_mIou it;
           AddImage "val_gt" (make_grid (_targets v) 8) it;
           AddImage "val_pred" (make_grid (_preds v) 8) it]
       (emit [Print Evaluating] w))) as Hok.
  destruct (save_checkpoint _ _ _ _) as [w' r]. cbn [fst snd] in *.
  subst r. reflexivity.
Qed.

End Validation.

(** ** The batch loop and its logging cadence *)

Section Training.
Context `{C : Collaborators}.

Lemma emit_nil (w : World) : emit [] w = w.
Proof. destruct w. unfold emit. cbn. by rewrite app_nil_r. Qed.

Lemma emit_emit es es' (w : World) : emit es' (emit es w) = emit (es ++ es') w.
Proof. unfold emit. cbn. by rewrite app_assoc. Qed.

Lemma scalars_app tag (tr tr' : list Event) :
  scalars tag (tr ++ tr') = scalars tag tr ++ scalars tag tr'.
Proof.
  induction tr as [|ev tr IH]; [reflexivity|].
  destruct ev; cbn [app scalars]; try exact IH.
  destruct (bool_decide _); [cbn; f_equal|]; exact IH.
Qed.

Lemma epochs_begun_app (tr tr' : list Event) :
  epochs_begun (tr ++ tr') = epochs_begun tr ++ epochs_begun tr'.
Proof.
  induction tr as [|ev tr IH]; [reflexivity|].
  destruct ev as [[]| | | | |]; cbn [app epochs_begun]; try exact IH.
  cbn. f_equal. exact IH.
Qed.

Lemma fs_effects_app (tr tr' : list Event) :
  fs_effects (tr ++ tr') = fs_effects tr ++ fs_effects tr'.
Proof.
  induction tr as [|ev tr IH]; [reflexivity|].
  destruct ev; cbn [app fs_effects]; try exact IH; cbn; f_equal; exact IH.
Qed.

(** One batch, with the two conditionals read off. *)
Lemma train_batch_unfold i t c w b :
  train_batch i (t, c, w) b =
    (let n := iteration c + 1 in
     let acc := (avg_loss c + batch_loss t b)%Q in
     let step :=
       backward_step (optimizer t) (model t) (criterion t) (fst b) (snd b) in
     (with_learner (snd step) (fst step) t,
      {| iteration := n; avg_loss := if n mod 100 =? 0 then 0%Q else acc |},
      emit (loss_events i n acc ++ image_events n t b) w)).
Proof.
  unfold train_batch, batch_loss, loss_events, image_events.
  destruct b as [images targets]. cbn [fst snd].
  destruct (backward_step _ _ _ _ _) as [o m]. cbn [fst snd]. cbv zeta.
  destruct (_ mod 100 =? 0); destruct (_ mod 500 =? 1);
    rewrite ?emit_emit, ?emit_nil; reflexivity.
Qed.

Lemma hundreds_succ from n :
  hundreds from (S n) =
    (if (from + 1) mod 100 =? 0 then [from + 1] else []) ++ hundreds (from + 1) n.
Proof.
  unfold hundreds. cbn [seq map]. rewrite filter_cons.
  replace (from + Z.of_nat 1) with (from + 1) by lia.
  rewrite <- seq_shift, map_map.
  rewrite (map_ext (fun x => from + Z.of_nat (S x))
             (fun j => from + 1 + Z.of_nat j)) by (intros; lia).
  destruct (Z.eqb_spec ((from + 1) mod 100) 0) as [E|E].
  - by rewrite decide_True.
  - by rewrite decide_False.
Qed.

Lemma loss_events_scalars i n acc :
  scalars "training loss" (loss_events i n acc) =
    if n mod 100 =? 0 then [((acc / 100)%Q, n)] else [].
Proof. unfold loss_events. destruct (_ =? 0); reflexivity. Qed.

Lemma image_events_scalars tag n t b : scalars tag (image_events n t b) = [].
Proof. unfold image_events. destruct (_ =? 1); reflexivity. Qed.

(** The batch loop of one epoch: the counter advances by one per batch
    and the running loss is logged at the multiples of 100 it passes. *)
Lemma train_batches_cadence i batches t c w :
  let '(t', c', w') := fold_left (train_batch i) batches (t, c, w) in
  iteration c' = iteration c + len batches
  /\ map snd (scalars "training loss" (trace w')) =
       map snd (scalars "training loss" (trace w))
       ++ hundreds (iteration c) (length batches).
Proof.
  revert t c w. induction batches as [|b batches IH]; intros t c w.
  - cbn. unfold len, hundreds. cbn. rewrite app_nil_r. split; [lia|done].
  - cbn [fold_left]. rewrite train_batch_unfold. cbv zeta.
    match goal with |- context [fold_left _ _ (?t1, ?c1, ?w1)] =>
      specialize (IH t1 c1 w1) end.
    destruct (fold_left _ _ _) as [[t' c'] w']. cbn [iteration] in IH.
    destruct IH as [Hit Hlog]. split.
    + rewrite Hit. unfold len. cbn [length]. lia.
    + rewrite Hlog. cbn [emit trace].
      rewrite !scalars_app, loss_events_scalars, image_events_scalars.
      cbn [length]. rewrite hundreds_succ, app_nil_r, !map_app, <- !app_assoc.
      do 2 f_equal. destruct (_ =? 0); reflexivity.
Qed.

End Training.

(** ** Construction *)

Section Construction.
Context `{C : Collaborators}.

Lemma weight_case_length name :
  length (weight_case name) = if handled name then 1%nat else 0%nat.
Proof.
  unfold weight_case, handled.
  repeat (case_bool_decide; [subst name; reflexivity|]).
  rewrite bool_decide_eq_false_2; [reflexivity|].
  rewrite !elem_of_cons, elem_of_nil. tauto.
Qed.

Lemma class_weights_length :
  length class_weights = length (List.filter handled SegLabels).
Proof.
  unfold class_weights. induction SegLabels as [|name names IH]; [reflexivity|].
  cbn [flat_map List.filter]. rewrite length_app, weight_case_length, IH.
  by destruct (handled name).
Qed.

Lemma class_weights_positive : Forall (fun x => (0 < x)%Q) class_weights.
Proof.
  unfold class_weights. induction SegLabels as [|name names IH]; [constructor|].
  cbn [flat_map]. apply Forall_app. split; [|exact IH].
  unfold weight_case.
  repeat (case_bool_decide; [by repeat constructor|]). constructor.
Qed.

(** What a successful construction leaves in the object. *)
Lemma Trainer_init_inv a w t w' :
  Trainer_init a w = Ok (t, w') ->
  exists trainset,
    args t = a
    /\ early_stopper t = EarlyStopping 10 0.01%Q true
    /\ criterion t = CrossEntropyLoss class_weights 255
    /\ metric t = SegmentationMetric (len (classes trainset)) class_weights
    /\ train_loader t = DataLoader trainset (batch_size a)
    /\ best_pred t = (-1)%Q
    /\ files w' = files w /\ dirs w' = dirs w.
Proof.
  unfold Trainer_init.
  destruct (bool_decide (dataset a = "nyu"));
    [|destruct (bool_decide (dataset a = "ml4ded")); [|discriminate]];
    intros [= <- <-]; eexists; cbn; repeat split; reflexivity.
Qed.


End Construction.


(** ** The stored best score *)

Section BestScore.
Context `{C : Collaborators}.

Lemma best_of_snoc history s :
  best_of (history ++ [s]) =
    if Qgtb s (best_of history) then s else best_of history.
Proof. unfold best_of. by rewrite fold_left_app. Qed.

Lemma best_of_ge_sentinel history : (-1 <= best_of history)%Q.
Proof.
  induction history as [|s history IH] using rev_ind; [apply Qle_refl|].
  rewrite best_of_snoc. destruct (Qgtb s (best_of history)) eqn:E; [|exact IH].
  apply Qgtb_true in E. eapply Qle_trans; [exact IH|by apply Qlt_le_weak].
Qed.

Lemma best_of_upper history : Forall (fun p => (p <= best_of history)%Q) history.
Proof.
  induction history as [|s history IH] using rev_ind; [constructor|].
  rewrite best_of_snoc. apply Forall_app.
  destruct (Qgtb s (best_of history)) eqn:E.
  - apply Qgtb_true in E. split; [|repeat constructor; apply Qle_refl].
    eapply Forall_impl; [exact IH|]. intros p Hp. cbn beta in *.
    eapply Qle_trans; [exact Hp|by apply Qlt_le_weak].
  - apply Qgtb_false in E. split; [exact IH|by repeat constructor].
Qed.

Lemma best_of_in history :
  best_of history = (-1)%Q \/ In (best_of history) history.
Proof.
  induction history as [|s history IH] using rev_ind; [by left|].
  rewrite best_of_snoc. destruct (Qgtb s (best_of history)).
  - right. apply in_or_app. right. by left.
  - destruct IH as [IH|IH]; [by left|]. right. apply in_or_app. by left.
Qed.

(** A score beats the stored best exactly when it beats the sentinel
    and every score seen before. *)
Lemma exceeds_best_iff history s :
  (best_of history < s)%Q <->
  (-1 < s)%Q /\ Forall (fun p => (p < s)%Q) history.
Proof.
  split.
  - intros H. split.
    + eapply Qle_lt_trans; [apply best_of_ge_sentinel|exact H].
    + eapply Forall_impl; [apply best_of_upper|]. intros p Hp. cbn beta in *.
      eapply Qle_lt_trans; [exact Hp|exact H].
  - intros [Hs Hall]. destruct (best_of_in history) as [->|Hin]; [exact Hs|].
    rewrite Forall_forall in Hall. apply Hall. by apply list_elem_of_In.
Qed.

Lemma with_learner_same t m o : same_but_learner t (with_learner m o t).
Proof. by repeat split. Qed.

Lemma train_batch_same i t c w b :
  same_but_learner t (fst (fst (train_batch i (t, c, w) b))).
Proof. rewrite train_batch_unfold. apply with_learner_same. Qed.

Lemma validation_raises_without_batches it e t w :
  val_loader t = [] ->
  snd (validation it e t w) = Raise (UnboundLocalError "pixAcc").
Proof. unfold validation. by intros ->. Qed.

Lemma validation_completes_iff it e t w :
  snd (validation it e t w) = Ok PyNone <-> val_loader t ≠ [].
Proof.
  split.
  - intros H Hnil. by rewrite validation_raises_without_batches in H.
  - intros H. by rewrite validation_unfold.
Qed.

Lemma validation_best_pred it e t w :
  val_loader t ≠ [] ->
  let t' := fst (fst (validation it e t w)) in
  metric t' = metric_after (model t) (val_loader t) (metric t)
  /\ best_pred t' =
       (if Qgtb (fitness (metric t')) (best_pred t)
        then fitness (metric t') else best_pred t).
Proof.
  intros H. rewrite validation_unfold by exact H. cbn [fst].
  destruct (Qgtb _ _) eqn:E; cbn [metric best_pred with_best_pred with_metric];
    rewrite E; by split.
Qed.

(** The stored best is what the replacement rule makes of the scores
    validation has produced. *)
Lemma observed_best_pred history t :
  observed history t -> best_pred t = best_of history.
Proof.
  induction 1 as [a w t w' Hinit|history t i c w b _ IH
                 |history t it e w _ IH Hok|history t s _ IH].
  - apply Trainer_init_inv in Hinit as (? & ? & ? & ? & ? & ? & Hbest & ?).
    exact Hbest.
  - destruct (train_batch_same i t c w b) as (_ & _ & _ & _ & _ & _ & ->).
    exact IH.
  - apply validation_completes_iff in Hok.
    destruct (validation_best_pred it e t w Hok) as [_ ->].
    by rewrite best_of_snoc, IH.
  - exact IH.
Qed.

Lemma path_exists_emit p es (w : World) :
  path_exists p (emit es w) = path_exists p w.
Proof. reflexivity. Qed.

Lemma save_checkpoint_trace m a is_best w :
  trace (fst (save_checkpoint m a is_best w)) =
    trace w ++ directory_effects a w ++ checkpoint_effects m a is_best.
Proof.
  unfold save_checkpoint, copyfile, directory_effects, checkpoint_effects.
  fold (latest_path a) (best_path a).
  destruct is_best.
  - rewrite bool_decide_eq_false_2 by apply latest_best_distinct.
    cbn [torch_save files]. rewrite lookup_insert_eq. cbn [fst trace].
    destruct (negb _); cbn [torch_save makedirs trace app];
      rewrite <- ?app_assoc; reflexivity.
  - cbn [fst].
    destruct (negb _); cbn [torch_save makedirs trace app];
      rewrite <- ?app_assoc; reflexivity.
Qed.

Lemma new_events_app (w w' : World) es :
  trace w' = trace w ++ es -> new_events w w' = es.
Proof. unfold new_events. intros ->. by rewrite drop_app_length. Qed.

(** Everything one completed validation pass adds to the trace. *)
Lemma validation_new_events it e t w :
  val_loader t ≠ [] ->
  let x := metric_after (model t) (val_loader t) (metric t) in
  new_events w (snd (fst (validation it e t w))) =
    Print Evaluating :: validation_report x (val_vars t) it
    ++ directory_effects (args t) w
    ++ checkpoint_effects (model t) (args t) (Qgtb (fitness x) (best_pred t)).
Proof.
  intros H x. apply new_events_app. rewrite validation_unfold by exact H.
  cbn [fst snd]. rewrite save_checkpoint_trace. cbn [emit trace].
  unfold directory_effects. rewrite !path_exists_emit.
  by rewrite <- !app_assoc.
Qed.

Lemma in_validation_report src dst x v it :
  ~ In (CopyFile src dst) (validation_report x v it).
Proof.
  unfold validation_report. destruct (metric_get x) as [[? ?] ?].
  cbn. intros H. repeat (destruct H as [H|H]; [discriminate|]). exact H.
Qed.

Lemma in_directory_effects src dst a w :
  ~ In (CopyFile src dst) (directory_effects a w).
Proof.
  unfold directory_effects. destruct (negb _); cbn; [|tauto].
  intros [H|H]; [discriminate|exact H].
Qed.

Lemma in_checkpoint_effects m a is_best :
  In (CopyFile (latest_path a) (best_path a)) (checkpoint_effects m a is_best)
  <-> is_best = true.
Proof.
  unfold checkpoint_effects. destruct is_best; cbn.
  - split; [reflexivity|]. intros _. right. by left.
  - split; [|discriminate]. intros [H|H]; [discriminate|destruct H].
Qed.

Lemma copy_in_new_events it e t w :
  val_loader t ≠ [] ->
  In (CopyFile (latest_path (args t)) (best_path (args t)))
     (new_events w (snd (fst (validation it e t w)))) <->
  (best_pred t <
     fitness (metric_after (model t) (val_loader t) (metric t)))%Q.
Proof.
  intros H. rewrite validation_new_events by exact H. cbv zeta.
  rewrite <- Qgtb_true, <- (in_checkpoint_effects (model t) (args t)).
  cbn [In]. rewrite !in_app_iff.
  pose proof (in_validation_report (latest_path (args t)) (best_path (args t))
    (metric_after (model t) (val_loader t) (metric t)) (val_vars t) it).
  pose proof (in_directory_effects (latest_path (args t)) (best_path (args t))
    (args t) w).
  split; [|tauto]. intros [Hp|[?|[?|?]]]; [discriminate|tauto..].
Qed.

End BestScore.

Lemma Demo_trainer_init :
  Trainer_init (C := Demo.collaborators) parse_args_defaults Demo.empty_world =
    Ok (Demo.trainer, Demo.greeted_world).
Proof. reflexivity. Qed.

Section BestScoreClaims.
Context `{C : Collaborators}.

Lemma fitness_above_sentinel (x : Metric) :
  let '(pixAcc, mIoU, _) := metric_get x in
  (0 <= pixAcc)%Q -> (0 <= mIoU)%Q -> (-1 < fitness x)%Q.
Proof.
  unfold fitness. destruct (metric_get x) as [[pixAcc mIoU] ?].
  intros. apply Qlt_shift_div_l; lra.
Qed.


(** C10: in the first validation of a run, a fitness above -1 wins the
    comparison with the sentinel, becomes the stored best, and the
    "best" file is written with the head's parameters, however low the
    fitness is; nonnegative pixel-accuracy and mean-IoU give such a
    fitness. *)
Theorem first_validation_writes_best
    (t : Trainer) (it e : Z) (w : World)
    (Hfirst : observed [] t)
    (Hne : val_loader t ≠ [])
    (Hscore :
      (-1 < fitness (metric_after (model t) (val_loader t) (metric t)))%Q) :
  let '(t', w', r) := validation it e t w in
  r = Ok PyNone
  /\ best_pred t = (-1)%Q
  /\ Qgtb (fitness (metric t')) (best_pred t) = true
  /\ best_pred t' = fitness (metric t')
  /\ In (CopyFile (latest_path (args t)) (best_path (args t))) (new_events w w')
  /\ files w' !! best_path (args t) = Some (seg_head_state_dict (model t))
  /\ files w' !! latest_path (args t) = Some (seg_head_state_dict (model t))
  /\ (forall x,
        let '(pixAcc, mIoU, _) := metric_get x in
        (0 <= pixAcc)%Q -> (0 <= mIoU)%Q -> (-1 < fitness x)%Q).
Proof.
  pose proof (validation_best_pred it e t w Hne) as [Hmetric Hbest].
  pose proof (copy_in_new_events it e t w Hne) as Hcopy.
  pose proof (observed_best_pred _ _ Hfirst) as Hstored.
  pose proof (proj2 (validation_completes_iff it e t w) Hne) as Hok.
  pose proof (validation_unfold it e t w Hne) as Hrun.
  change (best_of []) with (-1)%Q in Hstored.
  destruct (validation it e t w) as [[t' w'] r]. cbn [fst snd] in *.
  rewrite <- Hmetric in Hscore, Hcopy.
  assert (Hwin : Qgtb (fitness (metric t')) (best_pred t) = true).
  { apply Qgtb_true. by rewrite Hstored. }
  split; [exact Hok|]. split; [exact Hstored|]. split; [exact Hwin|].
  split; [by rewrite Hbest, Hwin|].
  split; [apply Hcopy; by rewrite Hstored|].
  cbv zeta in Hrun. rewrite <- Hmetric, Hwin in Hrun.
  destruct (save_checkpoint_best (model t) (args t)
    (emit (validation_report (metric t') (val_vars t) it)
       (emit [Print Evaluating] w))) as (w1 & Hsave & Hfiles & _).
  rewrite Hsave in Hrun. cbn [fst] in Hrun.
  injection Hrun as _ Hw _. subst w'. rewrite Hfiles.
  fold (best_path (args t)) (latest_path (args t)).
  split; [|split; [|apply fitness_above_sentinel]].
  - apply lookup_insert_eq.
  - rewrite lookup_insert_ne by (symmetry; apply latest_best_distinct).
    apply lookup_insert_eq.
Qed.

End BestScoreClaims.

(** ** One epoch *)

Section Epoch.
Context `{C : Collaborators}.

Lemma same_but_learner_trans t t' t'' :
  same_but_learner t t' -> same_but_learner t' t'' -> same_but_learner t t''.
Proof.
  unfold same_but_learner.
  intros (-> & -> & -> & -> & -> & -> & ->) (-> & -> & -> & -> & -> & -> & ->).
  by repeat split.
Qed.

(** What the batch loop of one epoch leaves unchanged, and what it does
    to the network. *)
Lemma train_batches_frame i batches : forall t c w,
  let '(t', c', w') := fold_left (train_batch i) batches (t, c, w) in
  same_but_learner t t'
  /\ (optimizer t', model t') =
       train_pass (criterion t) batches (optimizer t, model t)
  /\ files w' = files w /\ dirs w' = dirs w
  /\ exists es,
       trace w' = trace w ++ es
       /\ epochs_begun es = [] /\ fs_effects es = []
       /\ forall tag, tag ≠ "training loss" -> scalars tag es = [].
Proof.
  induction batches as [|b batches IH]; intros t c w.
  - cbn. split; [by repeat split|]. split; [reflexivity|].
    split; [reflexivity|]. split; [reflexivity|].
    exists []. by rewrite app_nil_r.
  - cbn [fold_left]. rewrite train_batch_unfold. cbv zeta.
    match goal with |- context [fold_left _ _ (?t1, ?c1, ?w1)] =>
      specialize (IH t1 c1 w1) end.
    destruct (fold_left _ _ _) as [[t' c'] w'].
    destruct IH as (Hsame & Hlearn & Hfiles & Hdirs & es & Htrace & He & Hf & Hs).
    split; [|split; [|split; [|split]]].
    + eapply same_but_learner_trans; [apply with_learner_same|exact Hsame].
    + rewrite Hlearn. unfold train_pass. cbn [fold_left with_learner criterion
        optimizer model]. f_equal. unfold learn. cbn [fst snd].
      by destruct (backward_step _ _ _ _ _).
    + exact Hfiles.
    + exact Hdirs.
    + eexists. split; [rewrite Htrace; cbn [emit trace]; by rewrite <- app_assoc|].
      rewrite !epochs_begun_app, !fs_effects_app, He, Hf.
      unfold loss_events, image_events.
      split; [by destruct (_ =? 0), (_ =? 1)|].
      split; [by destruct (_ =? 0), (_ =? 1)|].
      intros tag Htag. rewrite !scalars_app, (Hs tag Htag).
      destruct (_ =? 0), (_ =? 1); cbn; rewrite ?bool_decide_eq_false_2; done.
Qed.

Lemma train_batches_observed i batches history : forall t c w,
  observed history t ->
  observed history (fst (fst (fold_left (train_batch i) batches (t, c, w)))).
Proof.
  induction batches as [|b batches IH]; intros t c w H; [exact H|].
  cbn [fold_left].
  destruct (train_batch i (t, c, w) b) as [[t1 c1] w1] eqn:E.
  apply IH. change t1 with (fst (fst (t1, c1, w1))). rewrite <- E.
  by apply observed_train_batch.
Qed.

Lemma validation_same it e t w :
  same_but_scores t (fst (fst (validation it e t w))).
Proof.
  unfold validation.
  destruct (fold_left _ _ _) as [x v].
  destruct (stats v) as [[[pixAcc mIoU] weighted_mIou]|];
    [|by repeat split].
  destruct (Qgtb _ _); destruct (save_checkpoint _ _ _ _) as [w' [e'|[]]];
    by repeat split.
Qed.

(** One pass through the loop body when there is something to validate
    on: the batch loop, the validation pass, then the stopper, which is
    handed what [validation] evaluated to. *)
Lemma epoch_unfold total i t c w :
  val_loader t ≠ [] ->
  let st :=
    fold_left (train_batch i) (train_loader t)
      (t, c, emit [Print Rule; Print (TrainingEpoch (i + 1) total)] w) in
  let t1 := fst (fst st) in
  let c1 := snd (fst st) in
  let v := validation (iteration c1) i t1 (snd st) in
  let t2 := fst (fst v) in
  let w2 := snd (fst v) in
  epoch total i t c w =
    match stopper_call (early_stopper t) PyNone with
    | inl e => (t2, c1, w2, Some (Raised e))
    | inr s =>
        (with_early_stopper s t2, c1,
         if early_stop s then emit [Print (EarlyStoppingAt (i + 1))] w2 else w2,
         if early_stop s then Some (Stopped i) else None)
    end.
Proof.
  intros Hne. cbv zeta. unfold epoch.
  pose proof (train_batches_frame i (train_loader t) t c
    (emit [Print Rule; Print (TrainingEpoch (i + 1) total)] w)) as Hframe.
  destruct (fold_left _ _ _) as [[t1 c1] w1]. cbn [fst snd].
  destruct Hframe as ((_ & Hes1 & _ & Hva & _) & _).
  assert (Hne1 : val_loader t1 ≠ []) by by rewrite Hva.
  pose proof (proj2 (validation_completes_iff (iteration c1) i t1 w1) Hne1) as Hok.
  pose proof (validation_same (iteration c1) i t1 w1) as (_ & Hes2 & _).
  destruct (validation _ _ _ _) as [[t2 w2] r]. cbn [fst snd] in *.
  subst r. rewrite Hes2, Hes1. unfold Ok. cbn iota.
  destruct (stopper_call _ _) as [e|s]; [reflexivity|].
  by destruct (early_stop s).
Qed.

End Epoch.

Section EpochEffect.
Context `{C : Collaborators}.

(** Everything one pass through the loop body does, whichever way it
    leaves. *)
Lemma epoch_effect total i t c w :
  val_loader t ≠ [] ->
  let '(t', c', w', o) := epoch total i t c w in
  (args t' = args t /\ train_loader t' = train_loader t
   /\ val_loader t' = val_loader t /\ criterion t' = criterion t)
  /\ learner_and_metric t' =
       one_epoch (criterion t) (train_loader t) (val_loader t)
         (learner_and_metric t)
  /\ iteration c' = iteration c + len (train_loader t)
  /\ best_pred t' =
       (if Qgtb (fitness (metric t')) (best_pred t)
        then fitness (metric t') else best_pred t)
  /\ match stopper_call (early_stopper t) PyNone with
     | inl e => o = Some (Raised e) /\ early_stopper t' = early_stopper t
     | inr s =>
         early_stopper t' = s
         /\ o = (if early_stop s then Some (Stopped i) else None)
     end
  /\ (exists es v,
        trace w' =
          trace w
          ++ [Print Rule; Print (TrainingEpoch (i + 1) total)]
          ++ es
          ++ Print Evaluating :: validation_report (metric t') v (iteration c')
          ++ directory_effects (args t) w
          ++ checkpoint_effects (model t') (args t)
               (Qgtb (fitness (metric t')) (best_pred t))
          ++ stop_events i o
        /\ epochs_begun es = [] /\ fs_effects es = []
        /\ (forall tag, tag ≠ "training loss" -> scalars tag es = [])
        /\ map snd (scalars "training loss" es) =
             hundreds (iteration c) (length (train_loader t)))
  /\ (forall history,
        observed history t -> observed (history ++ [fitness (metric t')]) t').
Proof.
  intros Hne. rewrite (epoch_unfold total i t c w Hne). cbv zeta.
  pose proof (train_batches_frame i (train_loader t) t c
    (emit [Print Rule; Print (TrainingEpoch (i + 1) total)] w)) as Hframe.
  pose proof (train_batches_cadence i (train_loader t) t c
    (emit [Print Rule; Print (TrainingEpoch (i + 1) total)] w)) as Hcad.
  pose proof (fun h => train_batches_observed i (train_loader t) h t c
    (emit [Print Rule; Print (TrainingEpoch (i + 1) total)] w)) as Hobs.
  destruct (fold_left _ _ _) as [[t1 c1] w1]. cbn [fst snd] in *.
  destruct Hframe as (Hsame & Hlearn & Hfiles & Hdirs & es & Htrace
                      & Hes1 & Hes2 & Hes3).
  destruct Hcad as [Hiter Hloss].
  destruct Hsame as (Ha1 & Hs1 & Htr1 & Hva1 & Hc1 & Hm1 & Hb1).
  assert (Hne1 : val_loader t1 ≠ []) by by rewrite Hva1.
  pose proof (validation_same (iteration c1) i t1 w1)
    as (Ha2 & Hs2 & Htr2 & Hva2 & Hmo2 & Hc2 & Ho2).
  pose proof (validation_best_pred (iteration c1) i t1 w1 Hne1) as [Hmet Hbest].
  pose proof (validation_new_events (iteration c1) i t1 w1 Hne1) as Hnew.
  pose proof (proj2 (validation_completes_iff (iteration c1) i t1 w1) Hne1) as Hok.
  pose proof (validation_unfold (iteration c1) i t1 w1 Hne1) as Hval.
  pose proof (fun h H => observed_validation h t1 (iteration c1) i w1 H Hok) as Hobs2.
  set (v := validation (iteration c1) i t1 w1) in *.
  set (t2 := fst (fst v)) in *. set (w2 := snd (fst v)) in *.
  cbv zeta in Hnew. rewrite <- Hmet in Hnew.
  assert (Htrace2 : trace w2 = trace w1 ++ new_events w1 w2).
  { unfold new_events. subst w2 v. rewrite Hval. cbn [fst snd].
    rewrite save_checkpoint_trace. cbn [emit trace].
    rewrite <- !app_assoc, drop_app_length. reflexivity. }
  assert (Hdir : directory_effects (args t1) w1 = directory_effects (args t) w).
  { unfold directory_effects, path_exists. by rewrite Ha1, Hfiles, Hdirs. }
  assert (Hmain : forall (t' : Trainer) o w',
    args t' = args t2 -> train_loader t' = train_loader t2 ->
    val_loader t' = val_loader t2 -> criterion t' = criterion t2 ->
    optimizer t' = optimizer t2 -> model t' = model t2 ->
    metric t' = metric t2 -> best_pred t' = best_pred t2 ->
    trace w' = trace w2 ++ stop_events i o ->
    (forall history, observed history t2 -> observed history t') ->
    (args t' = args t /\ train_loader t' = train_loader t
     /\ val_loader t' = val_loader t /\ criterion t' = criterion t)
    /\ learner_and_metric t' =
         one_epoch (criterion t) (train_loader t) (val_loader t)
           (learner_and_metric t)
    /\ iteration c1 = iteration c + len (train_loader t)
    /\ best_pred t' =
         (if Qgtb (fitness (metric t')) (best_pred t)
          then fitness (metric t') else best_pred t)
    /\ (exists es v,
          trace w' =
            trace w
            ++ [Print Rule; Print (TrainingEpoch (i + 1) total)]
            ++ es
            ++ Print Evaluating :: validation_report (metric t') v (iteration c1)
            ++ directory_effects (args t) w
            ++ checkpoint_effects (model t') (args t)
                 (Qgtb (fitness (metric t')) (best_pred t))
            ++ stop_events i o
          /\ epochs_begun es = [] /\ fs_effects es = []
          /\ (forall tag, tag ≠ "training loss" -> scalars tag es = [])
          /\ map snd (scalars "training loss" es) =
               hundreds (iteration c) (length (train_loader t)))
    /\ (forall history,
          observed history t -> observed (history ++ [fitness (metric t')]) t')).
  { intros t' o w' Ea Etr Eva Ec Eo Em Ex Eb Ew Eobs.
    split; [|split; [|split; [|split; [|split]]]].
    - rewrite Ea, Etr, Eva, Ec, Ha2, Htr2, Hva2, Hc2. by repeat split.
    - unfold one_epoch, learner_and_metric. cbn [fst snd].
      rewrite <- Hlearn. cbn [snd].
      by rewrite Eo, Em, Ex, Ho2, Hmo2, Hmet, Hva1, Hm1.
    - exact Hiter.
    - by rewrite Eb, Ex, Hbest, Hb1.
    - exists es, (val_vars t1). split; [|split; [|split; [|split]]];
        [|exact Hes1|exact Hes2|exact Hes3|].
      + rewrite Ew, Htrace2, Hnew, Htrace, Ex, Em, Hmo2, Hdir, Ha1, Hb1.
        cbn [emit trace].
        repeat first [rewrite <- app_assoc | rewrite <- app_comm_cons].
        reflexivity.
      + rewrite Htrace in Hloss. cbn [emit trace] in Hloss.
        rewrite !scalars_app, !map_app in Hloss.
        apply app_inv_head in Hloss. exact Hloss.
    - intros history Hh. apply Eobs. rewrite Ex. apply Hobs2. by apply Hobs. }
  destruct (stopper_call (early_stopper t) PyNone) as [e|s].
  - destruct (Hmain t2 (Some (Raised e)) w2) as (H1 & H2 & H3 & H4 & H5 & H6);
      try reflexivity; [by rewrite app_nil_r|done|].
    split; [exact H1|]. split; [exact H2|]. split; [exact H3|].
    split; [exact H4|]. split; [|split; [exact H5|exact H6]].
    split; [reflexivity|]. by rewrite Hs2, Hs1.
  - destruct (Hmain (with_early_stopper s t2)
                (if early_stop s then Some (Stopped i) else None)
                (if early_stop s
                 then emit [Print (EarlyStoppingAt (i + 1))] w2 else w2))
      as (H1 & H2 & H3 & H4 & H5 & H6); try reflexivity.
    + unfold stop_events. destruct (early_stop s); cbn [broke emit trace];
        [reflexivity|by rewrite app_nil_r].
    + intros history Hh. by apply observed_early_stopper.
    + split; [exact H1|]. split; [exact H2|]. split; [exact H3|].
      split; [exact H4|]. split; [|split; [exact H5|exact H6]].
      by split.
Qed.

End EpochEffect.

(** ** The epoch loop *)

Section Loop.
Context `{C : Collaborators}.

(** What a stopper that only ever sees [None] makes of a budget. *)
Lemma schedule_spec todo : forall s,
  let n := fst (schedule todo s) in
  (n <= length todo)%nat
  /\ (forall j, (0 < j < n)%nat ->
        exists s', stopper_after j s = Ok s' /\ early_stop s' = false)
  /\ match snd (schedule todo s) with
     | Exhausted =>
         n = length todo
         /\ forall j, (0 < j <= n)%nat ->
              exists s', stopper_after j s = Ok s' /\ early_stop s' = false
     | Stopped i =>
         (0 < n)%nat /\ todo !! (n - 1)%nat = Some i
         /\ exists s', stopper_after n s = Ok s' /\ early_stop s' = true
     | Raised e => (0 < n)%nat /\ stopper_after n s = Raise e
     end.
Proof.
  induction todo as [|i todo IH]; intros s.
  - cbn. split; [lia|]. split; [intros; lia|]. split; [reflexivity|intros; lia].
  - cbn [schedule stopper_after]. destruct (stopper_call s PyNone) as [e|s'] eqn:Ecall.
    + cbn. rewrite Ecall. split; [lia|]. split; [intros; lia|]. split; [lia|done].
    + destruct (early_stop s') eqn:Estop.
      * cbn. rewrite Ecall. split; [lia|]. split; [intros; lia|].
        split; [lia|]. split; [reflexivity|]. by exists s'.
      * specialize (IH s'). cbn [fst snd length] in *.
        destruct IH as (Hle & Hbefore & Hout).
        assert (Hshift : forall j, (0 < j)%nat ->
          (j = 1%nat \/ (0 < j - 1)%nat) /\
          stopper_after j s = stopper_after (j - 1) s').
        { intros [|j] Hj; [lia|]. cbn [stopper_after]. rewrite Ecall.
          replace (S j - 1)%nat with j by lia. split; [lia|reflexivity]. }
        split; [lia|]. split.
        { intros j Hj. destruct (Hshift j ltac:(lia)) as [[->|Hpos] ->].
          - by exists s'.
          - apply Hbefore. lia. }
        destruct (snd (schedule todo s')) as [|i'|e].
        -- destruct Hout as [Hn Hall]. split; [lia|].
           intros j Hj. destruct (Hshift j ltac:(lia)) as [[->|Hpos] ->].
           ++ by exists s'.
           ++ apply Hall. lia.
        -- destruct Hout as (Hpos & Hnth & Hsig). split; [lia|]. split.
           ++ replace (S (fst (schedule todo s')) - 1)%nat
                with (S (fst (schedule todo s') - 1)) by lia.
              exact Hnth.
           ++ cbn [stopper_after]. by rewrite Ecall.
        -- destruct Hout as [Hpos Hraise]. split; [lia|].
           cbn [stopper_after]. by rewrite Ecall.
Qed.

(** The loop runs as many epochs as the stopper, fed [None] once per
    epoch, lets it, and leaves the way the stopper dictates; on [break]
    the last effects are that epoch's checkpoint write and the
    announcement. *)
Lemma epoch_loop_schedule total todo : forall t c w,
  val_loader t ≠ [] ->
  let '(t', c', w', out) := epoch_loop total todo t c w in
  let n := fst (schedule todo (early_stopper t)) in
  out = snd (schedule todo (early_stopper t))
  /\ args t' = args t
  /\ exists es,
       trace w' = trace w ++ es
       /\ epochs_begun es = map (fun i => i + 1) (take n todo)
       /\ forall i, out = Stopped i ->
            early_stop (early_stopper t') = true
            /\ exists pre is_best,
                 es = pre ++ checkpoint_effects (model t') (args t) is_best
                          ++ [Print (EarlyStoppingAt (i + 1))].
Proof.
  induction todo as [|i todo IH]; intros t c w Hne.
  - cbn. split; [reflexivity|]. split; [reflexivity|].
    exists []. rewrite app_nil_r. split; [reflexivity|]. split; [reflexivity|].
    discriminate.
  - cbn [epoch_loop schedule].
    pose proof (epoch_effect total i t c w Hne) as Heff.
    destruct (epoch total i t c w) as [[[t1 c1] w1] o].
    destruct Heff as ((Ha & _ & Hva & _) & _ & _ & _ & Hstop & Htrace & _).
    destruct Htrace as (es & v & Htrace & Hes & _).
    assert (Hbegun :
      epochs_begun ([Print Rule; Print (TrainingEpoch (i + 1) total)] ++ es
        ++ Print Evaluating :: validation_report (metric t1) v (iteration c1)
        ++ directory_effects (args t) w
        ++ checkpoint_effects (model t1) (args t)
             (Qgtb (fitness (metric t1)) (best_pred t))
        ++ stop_events i o) = [i + 1]).
    { cbn [app epochs_begun]. f_equal.
      rewrite !epochs_begun_app, Hes. cbn [app epochs_begun].
      rewrite !epochs_begun_app.
      unfold validation_report, directory_effects, checkpoint_effects, stop_events.
      destruct (metric_get _) as [[? ?] ?].
      destruct (negb _), (Qgtb _ _), (broke o); reflexivity. }
    destruct (stopper_call (early_stopper t) PyNone) as [e|s].
    + destruct Hstop as [-> _]. cbn [fst snd].
      split; [reflexivity|]. split; [exact Ha|].
      eexists. split; [exact Htrace|]. split; [exact Hbegun|discriminate].
    + destruct Hstop as [Hs ->]. destruct (early_stop s) eqn:Estop.
      * cbn [fst snd]. split; [reflexivity|]. split; [exact Ha|].
        eexists. split; [exact Htrace|]. split; [exact Hbegun|].
        intros i' [= <-]. split; [by rewrite Hs|].
        exists ([Print Rule; Print (TrainingEpoch (i + 1) total)] ++ es
                ++ Print Evaluating
                   :: validation_report (metric t1) v (iteration c1)
                ++ directory_effects (args t) w),
               (Qgtb (fitness (metric t1)) (best_pred t)).
        unfold stop_events. cbn [broke].
        repeat first [rewrite <- app_assoc | rewrite <- app_comm_cons].
        reflexivity.
      * assert (Hne1 : val_loader t1 ≠ []) by by rewrite Hva.
        specialize (IH t1 c1 w1 Hne1). rewrite Hs in IH.
        destruct (epoch_loop total todo t1 c1 w1) as [[[t' c'] w'] out].
        cbn [fst snd]. cbv zeta in IH.
        destruct IH as (Hout & Ha' & es' & Htrace' & Hes' & Hbreak).
        split; [exact Hout|]. split; [by rewrite Ha', Ha|].
        eexists (_ ++ es'). split.
        { rewrite Htrace', Htrace. rewrite <- app_assoc. reflexivity. }
        split.
        { rewrite epochs_begun_app, Hbegun, Hes'. reflexivity. }
        intros i' Hi'. destruct (Hbreak i' Hi') as (Hflag & pre & is_best & ->).
        split; [exact Hflag|]. rewrite Ha.
        eexists _, is_best. rewrite !app_assoc. reflexivity.
Qed.

End Loop.

Section Budget.
Context `{C : Collaborators}.

Lemma range_length n : length (range n) = Z.to_nat n.
Proof. unfold range. by rewrite length_map, length_seq. Qed.

Lemma range_take n k :
  (k <= Z.to_nat n)%nat -> take k (range n) = map Z.of_nat (seq 0 k).
Proof.
  intros H. unfold range. rewrite firstn_map, take_seq.
  by rewrite Nat.min_l.
Qed.

Lemma range_lookup n k i : range n !! k = Some i -> i = Z.of_nat k.
Proof.
  unfold range. rewrite list_lookup_fmap.
  destruct (seq 0 (Z.to_nat n) !! k) as [j|] eqn:E; [|discriminate].
  apply lookup_seq in E as [-> _]. by intros [= <-].
Qed.

(** Without validation batches the first epoch fails in [validation],
    after its batch loop, and the loop is left through the exception. *)
Lemma epoch_without_validation_batches total i t c w :
  val_loader t = [] ->
  let '(t', c', w', o) := epoch total i t c w in
  o = Some (Raised (UnboundLocalError "pixAcc"))
  /\ exists es, trace w' = trace w ++ es /\ epochs_begun es = [i + 1].
Proof.
  intros Hnil. unfold epoch.
  pose proof (train_batches_frame i (train_loader t) t c
    (emit [Print Rule; Print (TrainingEpoch (i + 1) total)] w)) as Hframe.
  destruct (fold_left _ _ _) as [[t1 c1] w1].
  destruct Hframe as ((_ & _ & _ & Hva & _) & _ & _ & _ & es & Htrace & Hes & _).
  rewrite Hnil in Hva. unfold validation. rewrite Hva. cbn [fold_left stats].
  split; [reflexivity|].
  exists ([Print Rule; Print (TrainingEpoch (i + 1) total)] ++ es
          ++ [Print Evaluating]).
  cbn [emit trace]. rewrite Htrace. cbn [emit trace]. split.
  - by rewrite <- !app_assoc.
  - cbn [app epochs_begun]. by rewrite epochs_begun_app, Hes.
Qed.

Lemma train_without_validation_batches t w :
  val_loader t = [] ->
  let '(t', c', w', out) := train t w in
  exists es,
    trace w' = trace w ++ es
    /\ epochs_begun es =
         map (fun j => Z.of_nat j + 1)
           (seq 0 (Nat.min 1 (Z.to_nat (epochs (args t))))).
Proof.
  intros Hnil. unfold train, range.
  destruct (Z.to_nat (epochs (args t))) as [|n].
  - cbn. exists []. by rewrite app_nil_r.
  - cbn [seq map epoch_loop Nat.min].
    pose proof (epoch_without_validation_batches (epochs (args t)) (Z.of_nat 0) t
      {| iteration := 0; avg_loss := 0 |} w Hnil) as H.
    destruct (epoch _ _ _ _ _) as [[[t' c'] w'] o].
    destruct H as [-> H]. exact H.
Qed.

(** C7: with an epoch budget N the loop begins at most N epochs, numbered
    1, 2, ... in order; with validation batches to run on, it begins
    exactly as many as pass before the stopper first signals (or
    raises), and all N when it never does; and when the stopper signals
    after epoch i + 1, the last effects of the run are that epoch's
    checkpoint write and the announcement of the stop, so no further
    epoch begins. *)
Theorem epoch_budget_and_early_stop (t : Trainer) (w : World) :
  let '(t', c', w', out) := train t w in
  let budget := Z.to_nat (epochs (args t)) in
  let begun := epochs_begun (new_events w w') in
  let n := length begun in
  begun = map (fun j => Z.of_nat j + 1) (seq 0 n)
  /\ (n <= budget)%nat
  /\ (val_loader t ≠ [] ->
      (n, out) = schedule (range (epochs (args t))) (early_stopper t)
      /\ (forall j, (0 < j < n)%nat ->
            exists s, stopper_after j (early_stopper t) = Ok s
                      /\ early_stop s = false)
      /\ match out with
         | Exhausted =>
             n = budget
             /\ forall j, (0 < j <= n)%nat ->
                  exists s, stopper_after j (early_stopper t) = Ok s
                            /\ early_stop s = false
         | Stopped i =>
             Z.of_nat n = i + 1
             /\ (exists s, stopper_after n (early_stopper t) = Ok s
                           /\ early_stop s = true)
             /\ early_stop (early_stopper t') = true
             /\ exists pre is_best,
                  new_events w w' =
                    pre ++ checkpoint_effects (model t') (args t) is_best
                        ++ [Print (EarlyStoppingAt (i + 1))]
         | Raised e =>
             (0 < n)%nat /\ stopper_after n (early_stopper t) = Raise e
         end).
Proof.
  destruct (val_loader t) as [|b bs] eqn:Hva.
  { pose proof (train_without_validation_batches t w Hva) as H.
    destruct (train t w) as [[[t' c'] w'] out]. cbv zeta.
    destruct H as (es & Htrace & Hbegun).
    rewrite (new_events_app _ _ _ Htrace), Hbegun, length_map, length_seq.
    split; [reflexivity|]. split; [lia|congruence]. }
  assert (Hne : val_loader t ≠ []) by by rewrite Hva.
  unfold train.
  pose proof (epoch_loop_schedule (epochs (args t)) (range (epochs (args t)))
    t {| iteration := 0; avg_loss := 0 |} w Hne) as Hloop.
  pose proof (schedule_spec (range (epochs (args t))) (early_stopper t)) as Hspec.
  destruct (epoch_loop _ _ _ _ _) as [[[t' c'] w'] out].
  cbv zeta in *.
  destruct Hloop as (Hout & Ha & es & Htrace & Hbegun & Hbreak).
  destruct Hspec as (Hle & Hbefore & Hexit).
  rewrite range_length in Hle.
  rewrite (new_events_app _ _ _ Htrace), Hbegun.
  rewrite range_take in * by exact Hle.
  rewrite map_map, length_map, length_seq.
  set (n := fst (schedule _ _)) in *.
  split; [reflexivity|]. split; [exact Hle|]. intros _.
  split; [rewrite Hout; by destruct (schedule _ _)|].
  split; [exact Hbefore|].
  rewrite <- Hout in Hexit. destruct out as [|i|e].
  - destruct Hexit as [Hn Hall]. rewrite range_length in Hn. by split.
  - destruct Hexit as (Hpos & Hnth & Hsig).
    apply range_lookup in Hnth.
    destruct (Hbreak i eq_refl) as (Hflag & pre & is_best & Hes).
    split; [lia|]. split; [exact Hsig|]. split; [exact Hflag|].
    by exists pre, is_best.
  - exact Hexit.
Qed.

End Budget.

Section LoopInvariant.
Context `{C : Collaborators}.

(** A fact that every pass through the loop body carries from [k]
    epochs to [k + 1] holds, when the loop is left, for as many epochs
    as the stopper allowed. *)
Lemma epoch_loop_invariant
    (Inv : nat -> Trainer -> Counters -> World -> Prop) total :
  (forall k i t c w,
     val_loader t ≠ [] -> Inv k t c w ->
     let '(t', c', w', _) := epoch total i t c w in Inv (S k) t' c' w') ->
  forall todo k t c w,
    val_loader t ≠ [] -> Inv k t c w ->
    let '(t', c', w', _) := epoch_loop total todo t c w in
    Inv (k + fst (schedule todo (early_stopper t)))%nat t' c' w'.
Proof.
  intros Hstep. induction todo as [|i todo IH]; intros k t c w Hne Hinv.
  - cbn. by rewrite Nat.add_0_r.
  - cbn [epoch_loop schedule].
    specialize (Hstep k i t c w Hne Hinv).
    pose proof (epoch_effect total i t c w Hne) as Heff.
    destruct (epoch total i t c w) as [[[t1 c1] w1] o].
    destruct Heff as ((_ & _ & Hva & _) & _ & _ & _ & Hstop & _).
    destruct (stopper_call (early_stopper t) PyNone) as [e|s].
    + destruct Hstop as [-> _]. cbn [fst]. by rewrite Nat.add_1_r.
    + destruct Hstop as [Hs ->]. destruct (early_stop s).
      * cbn [fst]. by rewrite Nat.add_1_r.
      * assert (Hne1 : val_loader t1 ≠ []) by by rewrite Hva.
        specialize (IH (S k) t1 c1 w1 Hne1 Hstep). rewrite Hs in IH.
        destruct (epoch_loop total todo t1 c1 w1) as [[[t' c'] w'] out].
        cbn [fst]. by rewrite Nat.add_succ_r.
Qed.

Lemma hundreds_app from n m :
  hundreds from (n + m) = hundreds from n ++ hundreds (from + Z.of_nat n) m.
Proof.
  unfold hundreds. rewrite seq_app, map_app, filter_app. f_equal.
  replace (1 + n)%nat with (n + 1)%nat by lia.
  rewrite <- (fmap_add_seq n 1 m), map_map.
  f_equal. apply map_ext. intros j. lia.
Qed.

Lemma validation_report_not_training_loss x v it :
  scalars "training loss" (validation_report x v it) = [].
Proof.
  unfold validation_report. by destruct (metric_get x) as [[? ?] ?].
Qed.

Lemma directory_effects_scalars tag a w : scalars tag (directory_effects a w) = [].
Proof. unfold directory_effects. by destruct (negb _). Qed.

Lemma checkpoint_effects_scalars tag m a b :
  scalars tag (checkpoint_effects m a b) = [].
Proof. unfold checkpoint_effects. by destruct b. Qed.

Lemma stop_events_scalars tag i o : scalars tag (stop_events i o) = [].
Proof. unfold stop_events. by destruct (broke o). Qed.

(** The running-loss log over whole epochs: after [k] epochs the global
    iteration is [k] times the number of training batches further on,
    and the log has grown by the multiples of 100 passed on the way. *)
Lemma epoch_loop_cadence total todo t c w :
  val_loader t ≠ [] ->
  let '(t', c', w', _) := epoch_loop total todo t c w in
  let k := fst (schedule todo (early_stopper t)) in
  iteration c' = iteration c + Z.of_nat (k * length (train_loader t))
  /\ map snd (scalars "training loss" (trace w')) =
       map snd (scalars "training loss" (trace w))
       ++ hundreds (iteration c) (k * length (train_loader t)).
Proof.
  intros Hne.
  pose proof (epoch_loop_invariant
    (fun k t' c' w' =>
       train_loader t' = train_loader t
       /\ iteration c' = iteration c + Z.of_nat (k * length (train_loader t))
       /\ map snd (scalars "training loss" (trace w')) =
            map snd (scalars "training loss" (trace w))
            ++ hundreds (iteration c) (k * length (train_loader t)))
    total) as Hrule.
  cbv beta in Hrule.
  specialize (fun H => Hrule H todo 0%nat t c w Hne).
  destruct (epoch_loop total todo t c w) as [[[t' c'] w'] out].
  cbn [Nat.add] in Hrule. apply Hrule.
  - clear Hrule. intros k i t1 c1 w1 Hne1 (Htr & Hit & Hlog).
    pose proof (epoch_effect total i t1 c1 w1 Hne1) as Heff.
    destruct (epoch total i t1 c1 w1) as [[[t2 c2] w2] o].
    destruct Heff as ((_ & Htr2 & _) & _ & Hit2 & _ & _ & Htrace & _).
    destruct Htrace as (es & v & Htrace & _ & _ & _ & Hloss).
    split; [by rewrite Htr2|]. split.
    + rewrite Hit2, Hit, Htr. unfold len. lia.
    + rewrite Htrace.
      repeat first [rewrite scalars_app | progress cbn [scalars app]].
      rewrite validation_report_not_training_loss,
        directory_effects_scalars, checkpoint_effects_scalars,
        stop_events_scalars, !app_nil_r, map_app, Hloss, Hlog, Hit, Htr.
      replace (S k * length (train_loader t))%nat
        with (k * length (train_loader t) + length (train_loader t))%nat by lia.
      by rewrite hundreds_app, app_assoc.
  - split; [reflexivity|]. cbn [Nat.mul]. unfold hundreds. cbn.
    rewrite app_nil_r. split; [lia|reflexivity].
Qed.

End LoopInvariant.

Section Cadence.
Context `{C : Collaborators}.

Lemma hundreds_spec from n k :
  In k (hundreds from n) <->
  from < k <= from + Z.of_nat n /\ k mod 100 = 0.
Proof.
  unfold hundreds. rewrite <- list_elem_of_In, list_elem_of_filter.
  rewrite list_elem_of_In, in_map_iff. split.
  - intros [Hmod (j & <- & Hj)]. apply in_seq in Hj. split; [lia|exact Hmod].
  - intros [Hk Hmod]. split; [exact Hmod|].
    exists (Z.to_nat (k - from)). split; [lia|]. apply in_seq. lia.
Qed.

Lemma train_batches_new_loss_scalars i batches t c w :
  let '(t', c', w') := fold_left (train_batch i) batches (t, c, w) in
  iteration c' = iteration c + len batches
  /\ map snd (scalars "training loss" (new_events w w')) =
       hundreds (iteration c) (length batches).
Proof.
  pose proof (train_batches_frame i batches t c w) as Hframe.
  pose proof (train_batches_cadence i batches t c w) as Hcad.
  destruct (fold_left _ _ _) as [[t' c'] w'].
  destruct Hframe as (_ & _ & _ & _ & es & Htrace & _).
  destruct Hcad as [Hit Hlog]. split; [exact Hit|].
  rewrite (new_events_app _ _ _ Htrace).
  rewrite Htrace, scalars_app, map_app in Hlog.
  by apply app_inv_head in Hlog.
Qed.

(** C6: an iteration logs the running loss exactly when its global
    number is divisible by 100; the value logged, under the tag
    "training loss" and at that iteration, is the accumulator divided by
    100, and the accumulator is zero right after; so 250 iterations
    from the start log twice, at 100 and at 200, and a whole run logs
    at the multiples of 100 up to its last iteration. *)
Theorem running_loss_logged_every_100_iterations :
  (forall i t c w b,
     let '(t', c', w') := train_batch i (t, c, w) b in
     iteration c' = iteration c + 1
     /\ (iteration c' mod 100 = 0 ->
           scalars "training loss" (new_events w w') =
             [(((avg_loss c + batch_loss t b) / 100)%Q, iteration c')]
           /\ avg_loss c' = 0%Q)
     /\ (iteration c' mod 100 <> 0 ->
           scalars "training loss" (new_events w w') = []
           /\ avg_loss c' = (avg_loss c + batch_loss t b)%Q))
  /\ (forall from n k,
        In k (hundreds from n) <->
        from < k <= from + Z.of_nat n /\ k mod 100 = 0)
  /\ (forall i batches t c w,
        let '(t', c', w') := fold_left (train_batch i) batches (t, c, w) in
        iteration c' = iteration c + len batches
        /\ map snd (scalars "training loss" (new_events w w')) =
             hundreds (iteration c) (length batches))
  /\ (forall i batches t a w,
        length batches = 250%nat ->
        let '(t', c', w') :=
          fold_left (train_batch i) batches
            (t, {| iteration := 0; avg_loss := a |}, w) in
        map snd (scalars "training loss" (new_events w w')) = [100; 200])
  /\ (forall t w,
        val_loader t ≠ [] ->
        let '(t', c', w', _) := train t w in
        map snd (scalars "training loss" (new_events w w')) =
          hundreds 0 (Z.to_nat (iteration c'))).
Proof.
  split; [|split; [|split; [|split]]].
  - intros i t c w b. rewrite train_batch_unfold. cbv zeta. cbn [iteration avg_loss].
    split; [reflexivity|].
    assert (Hnew : new_events w
      (emit (loss_events i (iteration c + 1) (avg_loss c + batch_loss t b)
             ++ image_events (iteration c + 1) t b) w) =
      loss_events i (iteration c + 1) (avg_loss c + batch_loss t b)
      ++ image_events (iteration c + 1) t b) by by apply new_events_app.
    rewrite Hnew, scalars_app, loss_events_scalars, image_events_scalars, app_nil_r.
    destruct (Z.eqb_spec ((iteration c + 1) mod 100) 0) as [E|E]; split; intros H;
      first [done | contradiction].
  - apply hundreds_spec.
  - apply train_batches_new_loss_scalars.
  - intros i batches t a w Hlen.
    pose proof (train_batches_new_loss_scalars i batches t
      {| iteration := 0; avg_loss := a |} w) as H.
    destruct (fold_left _ _ _) as [[t' c'] w']. destruct H as [_ ->].
    rewrite Hlen. reflexivity.
  - intros t w Hne. unfold train.
    pose proof (epoch_loop_schedule (epochs (args t)) (range (epochs (args t)))
      t {| iteration := 0; avg_loss := 0 |} w Hne) as Hsched.
    pose proof (epoch_loop_cadence (epochs (args t)) (range (epochs (args t)))
      t {| iteration := 0; avg_loss := 0 |} w Hne) as Hcad.
    destruct (epoch_loop _ _ _ _ _) as [[[t' c'] w'] out]. cbv zeta in *.
    destruct Hsched as (_ & _ & es & Htrace & _).
    destruct Hcad as [Hit Hlog]. cbn [iteration] in *.
    rewrite (new_events_app _ _ _ Htrace).
    rewrite Htrace, scalars_app, map_app in Hlog.
    apply app_inv_head in Hlog. rewrite Hlog, Hit. f_equal. lia.
Qed.

End Cadence.

(** ** The metric accumulator across epochs *)

Section Accumulator.
Context `{C : Collaborators}.

Lemma updated_app x pairs pairs' :
  updated x (pairs ++ pairs') = updated (updated x pairs) pairs'.
Proof. unfold updated. apply fold_left_app. Qed.

Lemma metric_after_updated m va x :
  metric_after m va x = updated x (validation_pairs m va).
Proof.
  unfold metric_after, updated, validation_pairs. revert x.
  induction va as [|b va IH]; intros x; [reflexivity|].
  cbn [fold_left map]. rewrite IH. reflexivity.
Qed.

Lemma after_epochs_succ crit tr va k s :
  after_epochs crit tr va (S k) s =
    one_epoch crit tr va (after_epochs crit tr va k s).
Proof. reflexivity. Qed.

(** The accumulator after [k] epochs is the initial one updated with
    the validation batches of all [k] epochs. *)
Lemma after_epochs_cumulative crit tr va k s :
  snd (after_epochs crit tr va k s) =
    updated (snd s) (all_validation_pairs crit tr va k s).
Proof.
  induction k as [|k IH]; [reflexivity|].
  unfold all_validation_pairs. rewrite seq_S, flat_map_app. cbn [flat_map].
  rewrite app_nil_r, updated_app. fold (all_validation_pairs crit tr va k s).
  rewrite <- IH, <- metric_after_updated. reflexivity.
Qed.

Lemma validation_report_scalars x v it :
  scalars "validation pixAcc" (validation_report x v it) =
    [(pixAcc_of (metric_get x), it)]
  /\ scalars "validation mIoU" (validation_report x v it) =
       [(mIoU_of (metric_get x), it)]
  /\ scalars "validation weighted mIoU" (validation_report x v it) =
       [(weighted_mIou_of (metric_get x), it)].
Proof.
  unfold validation_report. by destruct (metric_get x) as [[? ?] ?].
Qed.

Lemma reports_succ sel crit tr va s k :
  reports sel crit tr va s (S k) =
    reports sel crit tr va s k
    ++ [(sel (metric_get (snd (after_epochs crit tr va (S k) s))),
         Z.of_nat (S k * length tr))].
Proof. unfold reports. by rewrite seq_S, map_app. Qed.

(** Over the loop: the accumulator is carried from epoch to epoch, and
    each epoch reports the statistics of the accumulator as it then
    stands. *)
Lemma epoch_loop_accumulates total todo t w :
  val_loader t ≠ [] ->
  let '(t', c', w', _) :=
    epoch_loop total todo t {| iteration := 0; avg_loss := 0 |} w in
  let k := fst (schedule todo (early_stopper t)) in
  let run := after_epochs (criterion t) (train_loader t) (val_loader t) in
  learner_and_metric t' = run k (learner_and_metric t)
  /\ forall tag sel,
       (tag, sel) ∈ [("validation pixAcc", pixAcc_of);
                     ("validation mIoU", mIoU_of);
                     ("validation weighted mIoU", weighted_mIou_of)] ->
       scalars tag (trace w') =
         scalars tag (trace w)
         ++ reports sel (criterion t) (train_loader t) (val_loader t)
              (learner_and_metric t) k.
Proof.
  intros Hne.
  pose proof (epoch_loop_invariant
    (fun k t' c' w' =>
       (train_loader t' = train_loader t /\ val_loader t' = val_loader t
        /\ criterion t' = criterion t)
       /\ iteration c' = Z.of_nat (k * length (train_loader t))
       /\ learner_and_metric t' =
            after_epochs (criterion t) (train_loader t) (val_loader t) k
              (learner_and_metric t)
       /\ forall tag sel,
            (tag, sel) ∈ [("validation pixAcc", pixAcc_of);
                          ("validation mIoU", mIoU_of);
                          ("validation weighted mIoU", weighted_mIou_of)] ->
            scalars tag (trace w') =
              scalars tag (trace w)
              ++ reports sel (criterion t) (train_loader t) (val_loader t)
                   (learner_and_metric t) k)
    total) as Hrule.
  cbv beta in Hrule.
  specialize (fun H => Hrule H todo 0%nat t
    {| iteration := 0; avg_loss := 0 |} w Hne).
  destruct (epoch_loop total todo t _ w) as [[[t' c'] w'] out].
  cbn [Nat.add] in Hrule. cbv zeta.
  lapply Hrule; clear Hrule;
    [intros Hrule; lapply Hrule; clear Hrule;
       [intros (_ & _ & Hlm & Hrep); by split|]|].
  { split; [by repeat split|]. split; [cbn; lia|]. split; [reflexivity|].
    intros tag sel _. unfold reports. cbn. by rewrite app_nil_r. }
  intros k i t1 c1 w1 Hne1 ((Htr & Hva & Hcr) & Hit & Hlm & Hrep).
    pose proof (epoch_effect total i t1 c1 w1 Hne1) as Heff.
    destruct (epoch total i t1 c1 w1) as [[[t2 c2] w2] o].
    destruct Heff as ((_ & Htr2 & Hva2 & Hcr2) & Hlm2 & Hit2 & _ & _ & Htrace & _).
    destruct Htrace as (es & v & Htrace & _ & _ & Hes & _).
    rewrite Htr, Hva, Hcr, Hlm in Hlm2.
    split; [by rewrite Htr2, Hva2, Hcr2, Htr, Hva, Hcr|].
    assert (Hit' : iteration c2 = Z.of_nat (S k * length (train_loader t))).
    { rewrite Hit2, Hit, Htr. unfold len. lia. }
    split; [exact Hit'|]. split; [exact Hlm2|].
    intros tag sel Hin.
    assert (Htag : tag ≠ "training loss").
    { rewrite !elem_of_cons, elem_of_nil in Hin.
      destruct Hin as [[= -> _]|[[= -> _]|[[= -> _]|[]]]]; discriminate. }
    assert (Hmetric : metric t2 =
      snd (after_epochs (criterion t) (train_loader t) (val_loader t) (S k)
             (learner_and_metric t))).
    { rewrite after_epochs_succ, <- Hlm2. reflexivity. }
    rewrite Htrace.
    repeat first [rewrite scalars_app | progress cbn [scalars app]].
    rewrite (Hes tag Htag), directory_effects_scalars, checkpoint_effects_scalars,
      stop_events_scalars, !app_nil_r, (Hrep tag sel Hin), reports_succ.
    cbn [app]. rewrite <- app_assoc. f_equal. rewrite Hit', <- Hmetric.
    destruct (validation_report_scalars (metric t2) v
      (Z.of_nat (S k * length (train_loader t)))) as (H1 & H2 & H3).
    rewrite !elem_of_cons, elem_of_nil in Hin.
    destruct Hin as [[= -> ->]|[[= -> ->]|[[= -> ->]|[]]]];
      f_equal; assumption.
Qed.

End Accumulator.

Section AccumulatorClaim.
Context `{C : Collaborators}.

(** C9: the accumulator is built once, by the constructor, and a run
    never replaces it: after the run it is the accumulator the run
    started with, updated with the validation batches of every epoch
    begun; and the pixel-accuracy, mean-IoU and weighted mean-IoU logged
    for epoch j + 1 are the statistics of the accumulator updated with
    the validation batches of all of the epochs 1 .. j + 1. *)
Theorem metric_accumulates_across_epochs (t : Trainer) (w : World)
    (Hne : val_loader t ≠ []) :
  let '(t', c', w', _) := train t w in
  let n := length (epochs_begun (new_events w w')) in
  let pairs :=
    all_validation_pairs (criterion t) (train_loader t) (val_loader t) in
  (forall a w0 t0 w1,
     Trainer_init a w0 = Ok (t0, w1) ->
     exists trainset,
       metric t0 = SegmentationMetric (len (classes trainset)) class_weights)
  /\ metric t' = updated (metric t) (pairs n (learner_and_metric t))
  /\ forall tag sel,
       (tag, sel) ∈ [("validation pixAcc", pixAcc_of);
                     ("validation mIoU", mIoU_of);
                     ("validation weighted mIoU", weighted_mIou_of)] ->
       scalars tag (new_events w w') =
         map (fun j =>
                (sel (metric_get
                        (updated (metric t)
                           (pairs (S j) (learner_and_metric t)))),
                 Z.of_nat (S j * length (train_loader t))))
             (seq 0 n).
Proof.
  unfold train.
  pose proof (epoch_loop_schedule (epochs (args t)) (range (epochs (args t)))
    t {| iteration := 0; avg_loss := 0 |} w Hne) as Hsched.
  pose proof (epoch_loop_accumulates (epochs (args t)) (range (epochs (args t)))
    t w Hne) as Hacc.
  pose proof (schedule_spec (range (epochs (args t))) (early_stopper t))
    as (Hle & _).
  destruct (epoch_loop _ _ _ _ _) as [[[t' c'] w'] out]. cbv zeta in *.
  destruct Hsched as (_ & _ & es & Htrace & Hbegun & _).
  destruct Hacc as [Hlm Hrep].
  rewrite (new_events_app _ _ _ Htrace), Hbegun, length_map, length_take.
  rewrite Nat.min_l by exact Hle.
  set (n := fst (schedule _ _)) in *.
  split; [|split].
  - intros a w0 t0 w1 Hinit.
    apply Trainer_init_inv in Hinit as (trainset & _ & _ & _ & Hm & _).
    by exists trainset.
  - change (metric t') with (snd (learner_and_metric t')).
    by rewrite Hlm, after_epochs_cumulative.
  - intros tag sel Hin. specialize (Hrep tag sel Hin).
    rewrite Htrace, scalars_app in Hrep. apply app_inv_head in Hrep.
    rewrite Hrep. unfold reports. apply map_ext. intros j.
    by rewrite after_epochs_cumulative.
Qed.

End AccumulatorClaim.

(** ** What [validation] hands back *)

Section ValidationResult.
Context `{C : Collaborators}.

(** C1, checked against the script: a validation pass computes the
    fitness as the mean of pixel-accuracy and mean-IoU and compares it
    with the stored best, but the call evaluates to [None], not to the
    fitness, and [None] is what the loop hands to the early stopper. *)
Theorem validation_evaluates_to_None
    (total i it e : Z) (t : Trainer) (c : Counters) (w : World)
    (Hne : val_loader t ≠ []) :
  (let '(t', w', r) := validation it e t w in
   let '(pixAcc, mIoU, _) := metric_get (metric t') in
   fitness (metric t') = ((pixAcc + mIoU) / 2)%Q
   /\ best_pred t' =
        (if Qgtb ((pixAcc + mIoU) / 2) (best_pred t)
         then ((pixAcc + mIoU) / 2)%Q else best_pred t)
   /\ r = Ok PyNone
   /\ r <> Ok (PyFloat (fitness (metric t'))))
  /\ (let '(t', c', w', o) := epoch total i t c w in
      match stopper_call (early_stopper t) PyNone with
      | inl e => o = Some (Raised e)
      | inr s => early_stopper t' = s
      end).
Proof.
  split.
  - pose proof (validation_best_pred it e t w Hne) as [_ Hbest].
    pose proof (proj2 (validation_completes_iff it e t w) Hne) as Hok.
    destruct (validation it e t w) as [[t' w'] r]. cbn [fst snd] in *.
    unfold fitness in *.
    destruct (metric_get (metric t')) as [[pixAcc mIoU] weighted_mIou].
    split; [reflexivity|]. split; [exact Hbest|]. split; [exact Hok|].
    rewrite Hok. discriminate.
  - pose proof (epoch_effect total i t c w Hne) as Heff.
    destruct (epoch total i t c w) as [[[t' c'] w'] o].
    destruct Heff as (_ & _ & _ & _ & Hstop & _).
    destruct (stopper_call (early_stopper t) PyNone) as [e'|s];
      by destruct Hstop.
Qed.

End ValidationResult.

(** ** The stand-in run *)

Section StandIn.
#[local] Existing Instance Demo.collaborators.

Lemma Demo_first_validation : observed [] Demo.trainer.
Proof. exact (observed_init _ _ _ _ Demo_trainer_init). Qed.

(** The stand-in run: eleven epochs, then the stopper's patience of ten
    is exceeded. *)
Example Demo_run_stops_after_eleven_epochs :
  let '(t', c', w', out) := train Demo.trainer Demo.greeted_world in
  out = Stopped 10
  /\ epochs_begun (trace w') = [1; 2; 3; 4; 5; 6; 7; 8; 9; 10; 11]
  /\ iteration c' = 33.
Proof. vm_compute. repeat split. Qed.

(** In the stand-in run the network is wrong on both validation images
    in epoch 1 and right on both in epoch 2; the accuracy logged for
    epoch 2 is 2 of 4, the rate over both epochs. *)
Example Demo_second_epoch_reports_both_epochs :
  let '(t', c', w', out) := train Demo.trainer Demo.greeted_world in
  take 2 (scalars "validation pixAcc" (trace w')) =
    [((0 # 2)%Q, 3); ((2 # 4)%Q, 6)].
Proof. vm_compute. reflexivity. Qed.

Lemma validation_evaluates_to_None_witness :
  val_loader Demo.trainer ≠ []
  /\ (let '(t', w', r) := validation 3 0 Demo.trainer Demo.greeted_world in
      let '(pixAcc, mIoU, _) := metric_get (metric t') in
      fitness (metric t') = ((pixAcc + mIoU) / 2)%Q
      /\ best_pred t' =
           (if Qgtb ((pixAcc + mIoU) / 2) (best_pred Demo.trainer)
            then ((pixAcc + mIoU) / 2)%Q else best_pred Demo.trainer)
      /\ r = Ok PyNone
      /\ r <> Ok (PyFloat (fitness (metric t')))).
Proof.
  assert (H : val_loader Demo.trainer ≠ []) by discriminate.
  split; [exact H|].
  exact (proj1 (validation_evaluates_to_None 300 0 3 0 Demo.trainer
    {| iteration := 0; avg_loss := 0 |} Demo.greeted_world H)).
Defined.


Lemma first_validation_writes_best_witness :
  observed [] Demo.trainer
  /\ val_loader Demo.trainer ≠ []
  /\ (-1 < fitness (metric_after (model Demo.trainer) (val_loader Demo.trainer)
                      (metric Demo.trainer)))%Q
  /\ (let '(t', w', r) := validation 3 0 Demo.trainer Demo.greeted_world in
      r = Ok PyNone
      /\ best_pred t' = fitness (metric t')
      /\ files w' !! best_path (args Demo.trainer) =
           Some (seg_head_state_dict (model Demo.trainer))).
Proof.
  assert (H1 : observed [] Demo.trainer) by exact Demo_first_validation.
  assert (H2 : val_loader Demo.trainer ≠ []) by discriminate.
  assert (H3 : (-1 < fitness (metric_after (model Demo.trainer)
                   (val_loader Demo.trainer) (metric Demo.trainer)))%Q)
    by reflexivity.
  split; [exact H1|]. split; [exact H2|]. split; [exact H3|].
  pose proof (first_validation_writes_best Demo.trainer 3 0
    Demo.greeted_world H1 H2 H3) as H.
  destruct (validation 3 0 Demo.trainer Demo.greeted_world) as [[t' w'] r].
  destruct H as (Hr & _ & _ & Hb & _ & Hf & _).
  split; [exact Hr|]. split; [exact Hb|exact Hf].
Defined.

Lemma epoch_budget_and_early_stop_witness :
  val_loader Demo.trainer ≠ []
  /\ (let '(t', c', w', out) := train Demo.trainer Demo.greeted_world in
      let n := length (epochs_begun (new_events Demo.greeted_world w')) in
      (n <= Z.to_nat (epochs (args Demo.trainer)))%nat
      /\ (n, out) =
           schedule (range (epochs (args Demo.trainer)))
             (early_stopper Demo.trainer)).
Proof.
  assert (H : val_loader Demo.trainer ≠ []) by discriminate.
  split; [exact H|].
  pose proof (epoch_budget_and_early_stop Demo.trainer Demo.greeted_world)
    as Hrun.
  destruct (train Demo.trainer Demo.greeted_world) as [[[t' c'] w'] out].
  destruct Hrun as (_ & Hle & Hrun). destruct (Hrun H) as (Hsched & _).
  split; [exact Hle|exact Hsched].
Defined.

Lemma metric_accumulates_across_epochs_witness :
  val_loader Demo.trainer ≠ []
  /\ (let '(t', c', w', _) := train Demo.trainer Demo.greeted_world in
      let n := length (epochs_begun (new_events Demo.greeted_world w')) in
      metric t' =
        updated (metric Demo.trainer)
          (all_validation_pairs (criterion Demo.trainer)
             (train_loader Demo.trainer) (val_loader Demo.trainer) n
             (learner_and_metric Demo.trainer))).
Proof.
  assert (H : val_loader Demo.trainer ≠ []) by discriminate.
  split; [exact H|].
  pose proof (metric_accumulates_across_epochs Demo.trainer Demo.greeted_world H)
    as Hrun.
  destruct (train Demo.trainer Demo.greeted_world) as [[[t' c'] w'] out].
  destruct Hrun as (_ & Hm & _). exact Hm.
Defined.

End StandIn.

(** * Further properties *)

(** ** Rounding with any divisor *)

(** X1: [make_divisible] with an explicit divisor raises
    [ZeroDivisionError] for the divisor 0 and for no other; with a
    positive divisor it rounds down to a multiple, with a negative one
    it rounds up, and the result is always less than one divisor away
    from the value. *)
Theorem make_divisible_by_any_divisor (val d : Z) :
  match make_divisible_by val d with
  | inl e => d = 0 /\ e = ZeroDivisionError
  | inr r =>
      d <> 0 /\ (d | r)
      /\ (0 < d -> r <= val < r + d)
      /\ (d < 0 -> r + d < val <= r)
  end.
Proof.
  unfold make_divisible_by, py_mod.
  destruct (Z.eqb_spec d 0) as [->|Hd]; [by split|].
  cbn. split; [exact Hd|]. split.
  - exists (val / d). pose proof (Z.div_mod val d Hd). lia.
  - split; intros Hs.
    + pose proof (Z.mod_pos_bound val d Hs). lia.
    + pose proof (Z.mod_neg_bound val d Hs). lia.
Qed.

(** X2: rounding to the patch size is idempotent and monotone, its
    fixed points are exactly the multiples of 14, and it removes less
    than 14, also from a negative value. *)
Theorem make_divisible_idempotent_monotone :
  (forall v, make_divisible (make_divisible v) = make_divisible v)
  /\ (forall v v', v <= v' -> make_divisible v <= make_divisible v')
  /\ (forall v, make_divisible v = v <-> (14 | v))
  /\ (forall v, 0 <= v - make_divisible v < 14).
Proof.
  assert (Hfix : forall v, make_divisible v = v <-> (14 | v)).
  { intros v. unfold make_divisible, patch_size. split.
    - intros H. apply Z.mod_divide; lia.
    - intros H. apply Z.mod_divide in H; lia. }
  split; [|split; [|split]].
  - intros v. apply Hfix. apply make_divisible_multiple.
  - intros v v' Hle. apply make_divisible_greatest.
    + apply make_divisible_multiple.
    + pose proof (make_divisible_le v). lia.
  - exact Hfix.
  - intros v. unfold make_divisible, patch_size.
    pose proof (Z.mod_pos_bound v 14). lia.
Qed.

(** ** The weight table against the label enumeration *)

Section WeightTable.
Context `{C : Collaborators}.

Lemma weight_case_handled name :
  handled name = true -> weight_case name = [weight_of name].
Proof.
  unfold handled, weight_case, weight_of. intros H.
  apply bool_decide_eq_true_1 in H.
  rewrite !elem_of_cons, elem_of_nil in H.
  destruct H as [->|[->|[->|[->|[->|[->|[]]]]]]]; reflexivity.
Qed.

Lemma weight_case_unhandled name :
  handled name = false -> weight_case name = [].
Proof.
  intros H. pose proof (weight_case_length name) as Hlen. rewrite H in Hlen.
  by destruct (weight_case name).
Qed.

Lemma weights_all_handled (labels : list string) :
  Forall (fun name => handled name = true) labels ->
  flat_map weight_case labels = map weight_of labels.
Proof.
  induction 1 as [|name labels Hn _ IH]; [reflexivity|].
  cbn [flat_map map]. by rewrite (weight_case_handled _ Hn), IH.
Qed.

Lemma weights_length_le (labels : list string) :
  (length (flat_map weight_case labels) <= length labels)%nat.
Proof.
  induction labels as [|name labels IH]; [reflexivity|].
  cbn [flat_map length]. rewrite length_app, weight_case_length.
  destruct (handled name); cbn; lia.
Qed.

Lemma weights_length_full (labels : list string) :
  length (flat_map weight_case labels) = length labels ->
  Forall (fun name => handled name = true) labels.
Proof.
  induction labels as [|name labels IH]; intros H; [constructor|].
  cbn [flat_map length] in H. rewrite length_app, weight_case_length in H.
  pose proof (weights_length_le labels).
  destruct (handled name) eqn:E; cbn in H; [|lia].
  constructor; [exact E|]. apply IH. lia.
Qed.

(** X3: the weight vector has as many entries as [SegLabels] has
    members exactly when every member has a case in the table; then the
    weight at a position belongs to the label at that position, 0.5 for
    CURRENT_PART and 0.1 otherwise.  A member without a case gets no
    entry, and the weights of the members after it move up one
    position. *)
Theorem class_weights_align_with_labels :
  (length class_weights = length SegLabels <->
     Forall (fun name => handled name = true) SegLabels)
  /\ (Forall (fun name => handled name = true) SegLabels ->
      forall i name,
        SegLabels !! i = Some name ->
        class_weights !! i = Some (weight_of name))
  /\ (forall before name after,
        SegLabels = before ++ name :: after ->
        handled name = false ->
        Forall (fun n => handled n = true) before ->
        forall j, class_weights !! (length before + j)%nat =
                  flat_map weight_case after !! j).
Proof.
  unfold class_weights. split; [|split].
  - split; [apply weights_length_full|].
    intros H. by rewrite (weights_all_handled _ H), length_map.
  - intros H i name Hi. rewrite (weights_all_handled _ H).
    change (map weight_of SegLabels) with (weight_of <$> SegLabels).
    by rewrite list_lookup_fmap, Hi.
  - intros before name after -> Hname Hbefore j.
    rewrite flat_map_app. cbn [flat_map].
    rewrite (weight_case_unhandled _ Hname), (weights_all_handled _ Hbefore).
    cbn [app]. rewrite lookup_app_r by (rewrite length_map; lia).
    rewrite length_map. f_equal. lia.
Qed.

End WeightTable.

(** ** More on the checkpoint writer *)

Section CheckpointMore.
Context `{C : Collaborators}.

(** The world a checkpoint write leaves, spelled out. *)
Lemma save_checkpoint_world m a is_best w :
  let d := expanduser (save_dir a) in
  let head := seg_head_state_dict m in
  save_checkpoint m a is_best w =
    ({| files :=
          if is_best
          then <[best_path a := head]> (<[latest_path a := head]> (files w))
          else <[latest_path a := head]> (files w);
        dirs := if path_exists d w then dirs w else {[d]} ∪ dirs w;
        trace := trace w ++ directory_effects a w
                 ++ checkpoint_effects m a is_best |}, Ok tt).
Proof.
  cbv zeta. unfold save_checkpoint, copyfile, directory_effects,
    checkpoint_effects.
  fold (latest_path a) (best_path a).
  destruct is_best.
  - rewrite bool_decide_eq_false_2 by apply latest_best_distinct.
    cbn [torch_save files]. rewrite lookup_insert_eq.
    destruct (path_exists _ w); unfold torch_save, makedirs;
      cbn [negb files dirs trace app fst]; rewrite <- ?app_assoc; reflexivity.
  - destruct (path_exists _ w); unfold torch_save, makedirs;
      cbn [negb files dirs trace app fst]; rewrite <- ?app_assoc; reflexivity.
Qed.

Lemma path_exists_after_save m a is_best w :
  path_exists (expanduser (save_dir a)) (fst (save_checkpoint m a is_best w)) = true.
Proof.
  rewrite save_checkpoint_world. cbn [fst]. unfold path_exists at 1. cbn [dirs files].
  destruct (path_exists (expanduser (save_dir a)) w) eqn:E.
  - unfold path_exists in E. apply orb_true_iff in E as [E|E].
    + by rewrite E.
    + apply bool_decide_eq_true_1 in E. apply orb_true_iff. right.
      apply bool_decide_eq_true_2.
      destruct is_best; rewrite ?lookup_insert_is_Some'; tauto.
  - apply orb_true_iff. left. apply bool_decide_eq_true_2. set_solver.
Qed.



End CheckpointMore.

(** ** More on the batch loop *)

Section BatchLoopMore.
Context `{C : Collaborators}.

Lemma image_steps_app tag (tr tr' : list Event) :
  image_steps tag (tr ++ tr') = image_steps tag tr ++ image_steps tag tr'.
Proof.
  induction tr as [|ev tr IH]; [reflexivity|].
  destruct ev; cbn [app image_steps]; try exact IH.
  destruct (bool_decide _); [cbn; f_equal|]; exact IH.
Qed.

Lemma sample_steps_succ from n :
  sample_steps from (S n) =
    (if (from + 1) mod 500 =? 1 then [from + 1] else [])
    ++ sample_steps (from + 1) n.
Proof.
  unfold sample_steps. cbn [seq map]. rewrite filter_cons.
  replace (from + Z.of_nat 1) with (from + 1) by lia.
  rewrite <- seq_shift, map_map.
  rewrite (map_ext (fun x => from + Z.of_nat (S x))
             (fun j => from + 1 + Z.of_nat j)) by (intros; lia).
  destruct (Z.eqb_spec ((from + 1) mod 500) 1) as [E|E].
  - by rewrite decide_True.
  - by rewrite decide_False.
Qed.

Lemma batch_image_steps tag i n acc t b :
  tag = "pred" \/ tag = "gt" ->
  image_steps tag (loss_events i n acc ++ image_events n t b) =
    if n mod 500 =? 1 then [n] else [].
Proof.
  intros Htag. rewrite image_steps_app. unfold loss_events, image_events.
  destruct (n mod 100 =? 0), (n mod 500 =? 1), Htag as [->| ->]; reflexivity.
Qed.

Lemma train_batches_image_steps tag i batches : forall t c w,
  tag = "pred" \/ tag = "gt" ->
  let '(_, _, w') := fold_left (train_batch i) batches (t, c, w) in
  image_steps tag (trace w') =
    image_steps tag (trace w) ++ sample_steps (iteration c) (length batches).
Proof.
  induction batches as [|b batches IH]; intros t c w Htag.
  - cbn. unfold sample_steps. cbn. by rewrite app_nil_r.
  - cbn [fold_left]. rewrite train_batch_unfold. cbv zeta.
    match goal with |- context [fold_left _ _ (?t1, ?c1, ?w1)] =>
      specialize (IH t1 c1 w1 Htag) end.
    destruct (fold_left _ _ _) as [[t' c'] w']. cbn [iteration] in IH.
    rewrite IH. cbn [emit trace length].
    rewrite image_steps_app, (batch_image_steps tag _ _ _ _ _ Htag).
    by rewrite sample_steps_succ, <- app_assoc.
Qed.

(** X4: over a batch loop the sample pictures are logged exactly at the
    global iterations that leave remainder 1 modulo 500, once under
    "pred" and once under "gt" at each, so the first iteration of a run
    logs a pair. *)
Theorem sample_pictures_logged_every_500_iterations
    (i : Z) (batches : list (Image * Target)) (t : Trainer) (c : Counters)
    (w : World) :
  let '(_, _, w') := fold_left (train_batch i) batches (t, c, w) in
  image_steps "pred" (new_events w w') = sample_steps (iteration c) (length batches)
  /\ image_steps "gt" (new_events w w') = sample_steps (iteration c) (length batches)
  /\ (forall k, In k (sample_steps (iteration c) (length batches)) <->
                iteration c < k <= iteration c + len batches /\ k mod 500 = 1)
  /\ (iteration c = 0 -> batches <> [] ->
      exists rest, image_steps "pred" (new_events w w') = 1 :: rest).
Proof.
  pose proof (train_batches_frame i batches t c w) as Hframe.
  pose proof (train_batches_image_steps "pred" i batches t c w
    ltac:(by left)) as Hpred.
  pose proof (train_batches_image_steps "gt" i batches t c w
    ltac:(by right)) as Hgt.
  destruct (fold_left _ _ _) as [[t' c'] w'].
  destruct Hframe as (_ & _ & _ & _ & es & Htrace & _).
  rewrite (new_events_app _ _ _ Htrace).
  rewrite Htrace, image_steps_app in Hpred, Hgt.
  apply app_inv_head in Hpred, Hgt.
  split; [exact Hpred|]. split; [exact Hgt|]. split.
  - intros k. unfold sample_steps, len.
    rewrite <- list_elem_of_In, list_elem_of_filter, list_elem_of_In, in_map_iff.
    split.
    + intros [Hmod (j & <- & Hj)]. apply in_seq in Hj. split; [lia|exact Hmod].
    + intros [Hk Hmod]. split; [exact Hmod|].
      exists (Z.to_nat (k - iteration c)). split; [lia|]. apply in_seq. lia.
  - intros H0 Hne. rewrite Hpred, H0.
    destruct batches as [|b batches]; [done|].
    cbn [length]. rewrite sample_steps_succ.
    change ((0 + 1) mod 500 =? 1) with true. cbn [app]. eauto.
Qed.

Lemma losses_of_cons t b batches :
  losses_of t (b :: batches) = batch_loss t b :: losses_of (after_batch t b) batches.
Proof. reflexivity. Qed.

Lemma next_remainder n :
  n mod 100 <> 99 -> (n + 1) mod 100 = n mod 100 + 1.
Proof. intros H. Z.div_mod_to_equations. lia. Qed.

Lemma last_remainder n : n mod 100 = 99 -> (n + 1) mod 100 = 0.
Proof. intros H. Z.div_mod_to_equations. lia. Qed.

(** From any point of a hundred-iteration window to its end: nothing is
    logged before the end, and the value logged at the end is the
    accumulator with each loss of the batches added in turn, divided by
    100. *)
Lemma train_batches_window i batches : forall t c w,
  batches <> [] ->
  iteration c mod 100 + len batches = 100 ->
  let '(_, c', w') := fold_left (train_batch i) batches (t, c, w) in
  scalars "training loss" (trace w') =
    scalars "training loss" (trace w)
    ++ [((accumulate (avg_loss c) (losses_of t batches) / 100)%Q,
         iteration c + len batches)]
  /\ avg_loss c' = 0%Q.
Proof.
  induction batches as [|b batches IH]; intros t c w Hne Hlen; [done|].
  cbn [fold_left]. rewrite train_batch_unfold. cbv zeta.
  fold (after_batch t b). rewrite losses_of_cons.
  unfold len in Hlen. cbn [length] in Hlen.
  destruct batches as [|b' batches].
  - cbn [fold_left length] in *. unfold len. cbn [length avg_loss iteration emit trace].
    assert (Hr : iteration c mod 100 = 99) by lia.
    rewrite (last_remainder _ Hr). cbn [Z.eqb].
    rewrite !scalars_app, loss_events_scalars, image_events_scalars, app_nil_r.
    rewrite (last_remainder _ Hr). cbn [Z.eqb].
    split; [|reflexivity]. do 3 f_equal.
  - assert (Hr : iteration c mod 100 <> 99) by (cbn [length] in Hlen; lia).
    assert (Hnz : ((iteration c + 1) mod 100 =? 0) = false).
    { apply Z.eqb_neq. rewrite (next_remainder _ Hr).
      pose proof (Z.mod_pos_bound (iteration c) 100). lia. }
    rewrite Hnz.
    match goal with |- context [fold_left _ _ (?t1, ?c1, ?w1)] =>
      specialize (IH t1 c1 w1 ltac:(done)) end.
    cbn [iteration avg_loss] in IH.
    rewrite (next_remainder _ Hr) in IH. unfold len in IH.
    specialize (IH ltac:(cbn [length] in *; lia)).
    destruct (fold_left _ _ _) as [[t' c'] w'].
    destruct IH as [Hlog Hacc]. split; [|exact Hacc].
    rewrite Hlog. cbn [emit trace].
    rewrite !scalars_app, loss_events_scalars, image_events_scalars, Hnz, !app_nil_r.
    unfold accumulate, len. cbn [fold_left length]. do 3 f_equal. lia.
Qed.


End BatchLoopMore.

(** ** The pictures a validation pass collects *)

Section Pictures.
Context `{C : Collaborators}.

Lemma collect_fold pred target (indices : list nat) :
  forall ps ts : list Picture,
    length ps = length ts -> (length ps <= 64)%nat ->
    fold_left (collect pred target) indices (ps, ts) =
      (take 64 (ps ++ map (decode_pred pred) indices),
       take 64 (ts ++ map (decode_target target) indices)).
Proof.
  induction indices as [|i indices IH]; intros ps ts Hlen Hle.
  - cbn. rewrite !app_nil_r, !take_ge by lia. reflexivity.
  - cbn [fold_left map]. unfold collect at 2. cbn [fst snd].
    destruct (Nat.ltb_spec (length ps) 64) as [Hlt|Hge].
    + rewrite IH by (rewrite ?length_app; cbn; lia).
      by rewrite <- !app_assoc.
    + rewrite IH by assumption.
      rewrite !take_app_le by lia. reflexivity.
Qed.

Lemma take_take_app {A : Type} n (l l' : list A) :
  take n (take n l ++ l') = take n (l ++ l').
Proof.
  destruct (Nat.le_gt_cases n (length l)) as [Hfull|Hroom].
  - rewrite !take_app_le by (rewrite ?length_take; lia).
    by rewrite take_take, Nat.min_id.
  - by rewrite (take_ge l) by lia.
Qed.

Lemma validation_fold_pictures m batches : forall x (v : ValVars),
  length (_preds v) = length (_targets v) -> (length (_preds v) <= 64)%nat ->
  let v' := snd (fold_left (validation_batch m) batches (x, v)) in
  _preds v' = take 64 (_preds v ++ decoded_preds m batches)
  /\ _targets v' = take 64 (_targets v ++ decoded_targets m batches).
Proof.
  induction batches as [|b batches IH]; intros x v Hlen Hle.
  - cbn. rewrite !app_nil_r, !take_ge by lia. by split.
  - cbn [fold_left]. cbv zeta. destruct b as [image target].
    unfold decoded_preds, decoded_targets. cbn [flat_map fst snd].
    destruct (infer_image m image) as [outputs pred] eqn:Einf. cbn [fst snd].
    assert (Hst : validation_batch m (x, v) (image, target) =
      (metric_update x outputs target,
       {| stats := Some (metric_get (metric_update x outputs target));
          _preds :=
            take 64 (_preds v ++ map (decode_pred pred) (seq 0 (batch_len pred)));
          _targets :=
            take 64 (_targets v
                     ++ map (decode_target target) (seq 0 (batch_len pred))) |})).
    { unfold validation_batch. rewrite Einf. cbn [fst snd].
      rewrite collect_fold by assumption. reflexivity. }
    rewrite Hst.
    match goal with |- context [fold_left _ _ (?x1, ?v1)] =>
      specialize (IH x1 v1) end.
    cbv zeta in IH. cbn [_preds _targets] in IH.
    destruct IH as [Hp Ht].
    { rewrite !length_take, !length_app, !length_map. lia. }
    { rewrite length_take. lia. }
    fold (decoded_preds m batches) (decoded_targets m batches).
    rewrite Hp, Ht, !take_take_app, <- !app_assoc. by split.
Qed.

Lemma decoded_lengths m va :
  length (decoded_preds m va) = length (decoded_targets m va).
Proof.
  unfold decoded_preds, decoded_targets.
  induction va as [|b va IH]; [reflexivity|].
  cbn [flat_map]. by rewrite !length_app, !length_map, IH.
Qed.

(** X6: the pictures a validation pass collects are the first 64
    decoded predictions and the first 64 decoded targets of the pass, in
    order, pair by pair; with fewer than 64 samples they are all of
    them, and the two grids logged under "val_pred" and "val_gt" are
    made of these pictures. *)
Theorem validation_collects_first_64_pictures
    (it e : Z) (t : Trainer) (w : World) :
  _preds (val_vars t) = take 64 (decoded_preds (model t) (val_loader t))
  /\ _targets (val_vars t) = take 64 (decoded_targets (model t) (val_loader t))
  /\ length (_preds (val_vars t)) = length (_targets (val_vars t))
  /\ length (_preds (val_vars t)) =
       Nat.min 64 (length (decoded_preds (model t) (val_loader t)))
  /\ (val_loader t <> [] ->
      let w' := snd (fst (validation it e t w)) in
      In (AddImage "val_pred"
            (make_grid (take 64 (decoded_preds (model t) (val_loader t))) 8) it)
         (new_events w w')
      /\ In (AddImage "val_gt"
               (make_grid (take 64 (decoded_targets (model t) (val_loader t))) 8)
               it)
            (new_events w w')).
Proof.
  unfold val_vars.
  pose proof (validation_fold_pictures (model t) (val_loader t) (metric t)
    {| stats := None; _preds := []; _targets := [] |}
    eq_refl ltac:(cbn; lia)) as [Hp Ht].
  cbv zeta in Hp, Ht. cbn [_preds _targets app] in Hp, Ht.
  split; [exact Hp|]. split; [exact Ht|]. split; [|split].
  - rewrite Hp, Ht, !length_take. by rewrite decoded_lengths.
  - by rewrite Hp, length_take.
  - intros Hne. cbv zeta. rewrite validation_new_events by exact Hne.
    cbv zeta. unfold val_vars. rewrite <- Hp, <- Ht.
    unfold validation_report. destruct (metric_get _) as [[? ?] ?].
    split; cbn; tauto.
Qed.

End Pictures.

(** ** Files and directories across epochs *)

Section EpochFiles.
Context `{C : Collaborators}.

Lemma fs_effects_fixed_directory a w :
  fs_effects (directory_effects a w) = directory_effects a w.
Proof. unfold directory_effects. by destruct (negb _). Qed.

Lemma fs_effects_fixed_checkpoint m a b :
  fs_effects (checkpoint_effects m a b) = checkpoint_effects m a b.
Proof. unfold checkpoint_effects. by destruct b. Qed.

Lemma fs_effects_report x v it : fs_effects (validation_report x v it) = [].
Proof. unfold validation_report. by destruct (metric_get x) as [[? ?] ?]. Qed.

Lemma fs_effects_stop i o : fs_effects (stop_events i o) = [].
Proof. unfold stop_events. by destruct (broke o). Qed.

(** The file-system effects of one pass through the loop body: the
    directory check and one checkpoint write. *)
Lemma epoch_fs_effects total i t c w :
  val_loader t ≠ [] ->
  let '(t', _, w', _) := epoch total i t c w in
  fs_effects (trace w') =
    fs_effects (trace w) ++ directory_effects (args t) w
    ++ checkpoint_effects (model t') (args t)
         (Qgtb (fitness (metric t')) (best_pred t)).
Proof.
  intros Hne. pose proof (epoch_effect total i t c w Hne) as Heff.
  destruct (epoch total i t c w) as [[[t' c'] w'] o].
  destruct Heff as (_ & _ & _ & _ & _ & (es & v & Htrace & _ & Hes & _) & _).
  rewrite Htrace.
  repeat first [rewrite fs_effects_app | progress cbn [fs_effects app]].
  by rewrite Hes, fs_effects_report, fs_effects_fixed_directory,
    fs_effects_fixed_checkpoint, fs_effects_stop, app_nil_r.
Qed.

(** The files and directories one pass through the loop body leaves. *)
Lemma epoch_files total i t c w :
  val_loader t ≠ [] ->
  let '(t', _, w', _) := epoch total i t c w in
  let d := expanduser (save_dir (args t)) in
  let head := seg_head_state_dict (model t') in
  files w' =
    (if Qgtb (fitness (metric t')) (best_pred t)
     then <[best_path (args t) := head]>
            (<[latest_path (args t) := head]> (files w))
     else <[latest_path (args t) := head]> (files w))
  /\ dirs w' = (if path_exists d w then dirs w else {[d]} ∪ dirs w)
  /\ path_exists d w' = true.
Proof.
  intros Hne. rewrite (epoch_unfold total i t c w Hne). cbv zeta.
  pose proof (train_batches_frame i (train_loader t) t c
    (emit [Print Rule; Print (TrainingEpoch (i + 1) total)] w)) as Hframe.
  destruct (fold_left _ _ _) as [[t1 c1] w1]. cbn [fst snd].
  destruct Hframe as ((Ha1 & _ & _ & Hva1 & _ & Hm1 & Hb1) & _ & Hfiles & Hdirs & _).
  cbn [emit files dirs] in Hfiles, Hdirs.
  assert (Hne1 : val_loader t1 ≠ []) by by rewrite Hva1.
  pose proof (validation_unfold (iteration c1) i t1 w1 Hne1) as Hval.
  pose proof (validation_best_pred (iteration c1) i t1 w1 Hne1) as [Hmet _].
  pose proof (validation_same (iteration c1) i t1 w1) as (_ & _ & _ & _ & Hmo & _).
  set (v := validation (iteration c1) i t1 w1) in *.
  cbv zeta in Hval. rewrite <- Hmet in Hval.
  assert (Hw : snd (fst v) =
    fst (save_checkpoint (model t1) (args t1)
           (Qgtb (fitness (metric (fst (fst v)))) (best_pred t1))
           (emit (validation_report (metric (fst (fst v))) (val_vars t1)
                    (iteration c1))
              (emit [Print Evaluating] w1)))) by by rewrite Hval at 1.
  assert (Hexists : forall es es' : list Event,
    path_exists (expanduser (save_dir (args t))) (emit es' (emit es w1)) =
    path_exists (expanduser (save_dir (args t))) w).
  { intros. unfold path_exists. cbn [emit files dirs]. by rewrite Hfiles, Hdirs. }
  assert (Hmain : files (snd (fst v)) =
      (if Qgtb (fitness (metric (fst (fst v)))) (best_pred t)
       then <[best_path (args t) := seg_head_state_dict (model (fst (fst v)))]>
              (<[latest_path (args t) := seg_head_state_dict (model (fst (fst v)))]>
                 (files w))
       else <[latest_path (args t) := seg_head_state_dict (model (fst (fst v)))]>
              (files w))
    /\ dirs (snd (fst v)) =
         (if path_exists (expanduser (save_dir (args t))) w then dirs w
          else {[expanduser (save_dir (args t))]} ∪ dirs w)
    /\ path_exists (expanduser (save_dir (args t))) (snd (fst v)) = true).
  { rewrite Hw. split; [|split].
    - rewrite save_checkpoint_world. cbn [fst files emit].
      by rewrite Ha1, Hb1, Hmo, Hfiles.
    - rewrite save_checkpoint_world. cbn [fst dirs]. rewrite Ha1, Hexists.
      cbn [emit dirs]. by rewrite Hdirs.
    - rewrite <- Ha1. apply path_exists_after_save. }
  destruct (stopper_call (early_stopper t) PyNone) as [e|s]; [exact Hmain|].
  cbn [with_early_stopper model metric].
  destruct (early_stop s); exact Hmain.
Qed.

End EpochFiles.

(** ** A whole run *)

Section Run.
Context `{C : Collaborators}.

Lemma run_checkpoints_succ crit tr va s a start k :
  run_checkpoints crit tr va s a start (S k) =
    run_checkpoints crit tr va s a start k
    ++ checkpoint_effects (model_after crit tr va s k) a
         (Qgtb (fitness_after crit tr va s k)
            (fst (best_record crit tr va s start k))).
Proof.
  unfold run_checkpoints. rewrite seq_S, flat_map_app. cbn [flat_map].
  by rewrite app_nil_r.
Qed.

(** The state of trainer and file system after the epochs the stopper
    allowed. *)
Lemma epoch_loop_run_state total todo t c w :
  val_loader t ≠ [] ->
  let '(t', _, w', _) := epoch_loop total todo t c w in
  let k := fst (schedule todo (early_stopper t)) in
  let s := learner_and_metric t in
  let start := (best_pred t, files w !! best_path (args t)) in
  let rec := best_record (criterion t) (train_loader t) (val_loader t) s start in
  learner_and_metric t' =
    after_epochs (criterion t) (train_loader t) (val_loader t) k s
  /\ (best_pred t', files w' !! best_path (args t)) = rec k
  /\ ((0 < k)%nat ->
      files w' !! latest_path (args t) = Some (seg_head_state_dict (model t')))
  /\ (k = O -> files w' = files w /\ dirs w' = dirs w)
  /\ (forall p, p ≠ latest_path (args t) -> p ≠ best_path (args t) ->
                files w' !! p = files w !! p)
  /\ fs_effects (trace w') =
       fs_effects (trace w)
       ++ match k with O => [] | S _ => directory_effects (args t) w end
       ++ run_checkpoints (criterion t) (train_loader t) (val_loader t) s
            (args t) start k.
Proof.
  intros Hne.
  set (s := learner_and_metric t).
  set (start := (best_pred t, files w !! best_path (args t))).
  set (rec := best_record (criterion t) (train_loader t) (val_loader t) s start).
  pose proof (epoch_loop_invariant
    (fun k t' c' w' =>
       (args t' = args t /\ train_loader t' = train_loader t
        /\ val_loader t' = val_loader t /\ criterion t' = criterion t)
       /\ ((0 < k)%nat ->
           path_exists (expanduser (save_dir (args t))) w' = true)
       /\ learner_and_metric t' =
            after_epochs (criterion t) (train_loader t) (val_loader t) k s
       /\ (best_pred t', files w' !! best_path (args t)) = rec k
       /\ ((0 < k)%nat ->
           files w' !! latest_path (args t) =
             Some (seg_head_state_dict (model t')))
       /\ (k = O -> files w' = files w /\ dirs w' = dirs w)
       /\ (forall p, p ≠ latest_path (args t) -> p ≠ best_path (args t) ->
                     files w' !! p = files w !! p)
       /\ fs_effects (trace w') =
            fs_effects (trace w)
            ++ match k with O => [] | S _ => directory_effects (args t) w end
            ++ run_checkpoints (criterion t) (train_loader t) (val_loader t) s
                 (args t) start k)
    total) as Hrule.
  cbv beta in Hrule.
  specialize (fun H => Hrule H todo O t c w Hne).
  destruct (epoch_loop total todo t c w) as [[[t' c'] w'] out].
  cbn [Nat.add] in Hrule. cbv zeta.
  lapply Hrule; clear Hrule;
    [intros Hrule; lapply Hrule; clear Hrule;
       [intros (_ & _ & H); exact H|]|].
  { split; [by repeat split|]. split; [intros; lia|]. split; [reflexivity|].
    split; [reflexivity|]. split; [intros; lia|]. split; [by split|].
    split; [reflexivity|]. cbn. by rewrite app_nil_r. }
  intros k i t1 c1 w1 Hne1
    ((Ha & Htr & Hva & Hcr) & Hdir & Hlm & Hrec & Hlatest & Hzero & Hother & Hfs).
  pose proof (epoch_effect total i t1 c1 w1 Hne1) as Heff.
  pose proof (epoch_files total i t1 c1 w1 Hne1) as Hfiles.
  pose proof (epoch_fs_effects total i t1 c1 w1 Hne1) as Hfx.
  destruct (epoch total i t1 c1 w1) as [[[t2 c2] w2] o].
  destruct Heff as ((Ha2 & Htr2 & Hva2 & Hcr2) & Hlm2 & _ & Hbest2 & _).
  cbv zeta in Hfiles. destruct Hfiles as (Hf2 & _ & Hex2).
  rewrite Htr, Hva, Hcr, Hlm in Hlm2. rewrite Ha in Hf2, Hex2, Hfx.
  assert (Hbp : best_pred t1 = fst (rec k)) by by rewrite <- Hrec.
  assert (Hbf : files w1 !! best_path (args t) = snd (rec k)) by by rewrite <- Hrec.
  assert (Hmodel : model t2 =
    model_after (criterion t) (train_loader t) (val_loader t) s k).
  { unfold model_after. rewrite after_epochs_succ, <- Hlm2. reflexivity. }
  assert (Hfit : fitness (metric t2) =
    fitness_after (criterion t) (train_loader t) (val_loader t) s k).
  { unfold fitness_after. rewrite after_epochs_succ, <- Hlm2. reflexivity. }
  pose proof (latest_best_distinct (expanduser (save_dir (args t)))) as Hdistinct.
  fold (latest_path (args t)) (best_path (args t)) in Hdistinct.
  rewrite Hfit, Hbp in Hbest2, Hf2, Hfx. rewrite Hmodel in Hf2, Hfx.
  split; [by rewrite Ha2, Htr2, Hva2, Hcr2, Ha, Htr, Hva, Hcr|].
  split; [intros _; exact Hex2|]. split; [exact Hlm2|].
  split; [|split; [|split; [|split]]].
  - unfold rec at 1. cbn [best_record]. fold rec.
    rewrite Hbest2, Hf2.
    destruct (Qgtb _ (fst (rec k))).
    + by rewrite lookup_insert_eq.
    + rewrite lookup_insert_ne by exact Hdistinct.
      rewrite Hbf. by destruct (rec k).
  - intros _. rewrite Hf2, Hmodel.
    destruct (Qgtb _ _).
    + rewrite lookup_insert_ne by congruence. apply lookup_insert_eq.
    + apply lookup_insert_eq.
  - discriminate.
  - intros p Hl Hb. rewrite Hf2.
    destruct (Qgtb _ _); rewrite ?lookup_insert_ne by congruence;
      by apply Hother.
  - rewrite Hfx, Hfs, run_checkpoints_succ, <- !app_assoc. f_equal.
    destruct k as [|k].
    + destruct (Hzero eq_refl) as [Hfw Hdw].
      assert (Hd : directory_effects (args t) w1 = directory_effects (args t) w).
      { unfold directory_effects, path_exists. by rewrite Hfw, Hdw. }
      rewrite Hd. reflexivity.
    + unfold directory_effects at 2. rewrite (Hdir ltac:(lia)). cbn [negb app].
      reflexivity.
Qed.

Lemma learner_after_epochs crit tr va k s :
  fst (after_epochs crit tr va k s) = Nat.iter k (train_pass crit tr) (fst s).
Proof.
  induction k as [|k IH]; [reflexivity|].
  rewrite after_epochs_succ. unfold one_epoch. cbn [fst Nat.iter]. by rewrite IH.
Qed.

Lemma best_record_score crit tr va s start k :
  fst (best_record crit tr va s start k) =
    best_from (fst start) (map (fitness_after crit tr va s) (seq 0 k)).
Proof.
  induction k as [|k IH]; [reflexivity|].
  rewrite seq_S, map_app. unfold best_from. rewrite fold_left_app.
  fold (best_from (fst start) (map (fitness_after crit tr va s) (seq 0 k))).
  cbn [best_record map fold_left Nat.add]. rewrite <- IH.
  by destruct (Qgtb _ _).
Qed.

Lemma best_record_origin crit tr va s start k :
  best_record crit tr va s start k = start
  \/ exists j, (j < k)%nat
       /\ best_record crit tr va s start k =
            (fitness_after crit tr va s j,
             Some (seg_head_state_dict (model_after crit tr va s j))).
Proof.
  induction k as [|k IH]; [by left|].
  cbn [best_record]. destruct (Qgtb _ _).
  - right. exists k. split; [lia|reflexivity].
  - destruct IH as [IH|(j & Hj & IH)]; [by left|].
    right. exists j. split; [lia|exact IH].
Qed.

Lemma best_from_bounds b history :
  (b <= best_from b history)%Q
  /\ Forall (fun s => (s <= best_from b history)%Q) history.
Proof.
  induction history as [|s history [IHb IHh]] using rev_ind.
  - split; [apply Qle_refl|constructor].
  - unfold best_from. rewrite fold_left_app. fold (best_from b history).
    cbn [fold_left]. destruct (Qgtb s (best_from b history)) eqn:E.
    + apply Qgtb_true in E. split.
      * eapply Qle_trans; [exact IHb|by apply Qlt_le_weak].
      * apply Forall_app. split; [|repeat constructor; apply Qle_refl].
        eapply Forall_impl; [exact IHh|]. intros x Hx. cbn beta in *.
        eapply Qle_trans; [exact Hx|by apply Qlt_le_weak].
    + apply Qgtb_false in E. split; [exact IHb|].
      apply Forall_app. split; [exact IHh|by repeat constructor].
Qed.

End Run.

Section RunClaims.
Context `{C : Collaborators}.

Lemma saved_app (tr tr' : list Event) : saved (tr ++ tr') = saved tr ++ saved tr'.
Proof.
  induction tr as [|ev tr IH]; [reflexivity|].
  destruct ev; cbn [app saved]; try exact IH. cbn. f_equal. exact IH.
Qed.

Lemma saved_fs_effects (tr : list Event) : saved (fs_effects tr) = saved tr.
Proof.
  induction tr as [|ev tr IH]; [reflexivity|].
  destruct ev; cbn [fs_effects saved]; try exact IH. f_equal. exact IH.
Qed.

Lemma saved_directory a w : saved (directory_effects a w) = [].
Proof. unfold directory_effects. by destruct (negb _). Qed.

Lemma saved_run_checkpoints crit tr va s a start k :
  saved (run_checkpoints crit tr va s a start k) =
    map (fun j => seg_head_state_dict (model_after crit tr va s j)) (seq 0 k).
Proof.
  induction k as [|k IH]; [reflexivity|].
  rewrite run_checkpoints_succ, saved_app, IH, seq_S, map_app.
  f_equal. unfold checkpoint_effects. by destruct (Qgtb _ _).
Qed.

(** A run with validation batches, as far as the loop's exit and the
    number of epochs go. *)
Lemma train_begun t w :
  val_loader t ≠ [] ->
  let '(_, _, w', _) := train t w in
  exists es,
    trace w' = trace w ++ es
    /\ length (epochs_begun es) =
         fst (schedule (range (epochs (args t))) (early_stopper t)).
Proof.
  intros Hne. unfold train.
  pose proof (epoch_loop_schedule (epochs (args t)) (range (epochs (args t)))
    t {| iteration := 0; avg_loss := 0 |} w Hne) as Hloop.
  pose proof (schedule_spec (range (epochs (args t))) (early_stopper t))
    as (Hle & _).
  destruct (epoch_loop _ _ _ _ _) as [[[t' c'] w'] out]. cbv zeta in Hloop.
  destruct Hloop as (_ & _ & es & Htrace & Hbegun & _).
  exists es. split; [exact Htrace|].
  rewrite Hbegun, length_map, length_take. lia.
Qed.



(** X12: after a run the optimizer and the network are what one pass
    over the training batches per epoch begun makes of them, so
    validation never changes the network; and the iteration counter runs
    on across epochs, ending at the number of epochs times the number
    of training batches. *)
Theorem run_trains_one_pass_per_epoch (t : Trainer) (w : World)
    (Hne : val_loader t ≠ []) :
  let '(t', c', w', _) := train t w in
  let n := length (epochs_begun (new_events w w')) in
  (optimizer t', model t') =
    Nat.iter n (train_pass (criterion t) (train_loader t)) (optimizer t, model t)
  /\ iteration c' = Z.of_nat (n * length (train_loader t))
  /\ criterion t' = criterion t
  /\ args t' = args t.
Proof.
  pose proof (train_begun t w Hne) as Hbegun. unfold train in *.
  pose proof (epoch_loop_run_state (epochs (args t)) (range (epochs (args t)))
    t {| iteration := 0; avg_loss := 0 |} w Hne) as Hstate.
  pose proof (epoch_loop_cadence (epochs (args t)) (range (epochs (args t)))
    t {| iteration := 0; avg_loss := 0 |} w Hne) as Hcad.
  pose proof (epoch_loop_schedule (epochs (args t)) (range (epochs (args t)))
    t {| iteration := 0; avg_loss := 0 |} w Hne) as Hsched.
  pose proof (epoch_loop_invariant
    (fun _ t' _ _ => criterion t' = criterion t) (epochs (args t))) as Hcrit.
  specialize (fun H => Hcrit H (range (epochs (args t))) O t
    {| iteration := 0; avg_loss := 0 |} w Hne eq_refl).
  destruct (epoch_loop _ _ _ _ _) as [[[t' c'] w'] out]. cbv zeta in *.
  destruct Hbegun as (es & Htrace & Hn).
  destruct Hstate as (Hlm & _). destruct Hcad as [Hit _].
  destruct Hsched as (_ & Ha & _).
  rewrite (new_events_app _ _ _ Htrace), Hn.
  split; [|split; [exact Hit|split; [|exact Ha]]].
  - change (optimizer t', model t') with (fst (learner_and_metric t')).
    by rewrite Hlm, learner_after_epochs.
  - apply Hcrit. intros k i t1 c1 w1 Hne1 H1.
    pose proof (epoch_effect (epochs (args t)) i t1 c1 w1 Hne1) as Heff.
    destruct (epoch _ i t1 c1 w1) as [[[t2 c2] w2] o].
    destruct Heff as ((_ & _ & _ & Hc) & _). by rewrite Hc.
Qed.

End RunClaims.

(** ** Runs that do not get to validate *)

Section Edges.
Context `{C : Collaborators}.

Lemma epoch_without_validation total i t c w :
  val_loader t = [] ->
  let st :=
    fold_left (train_batch i) (train_loader t)
      (t, c, emit [Print Rule; Print (TrainingEpoch (i + 1) total)] w) in
  epoch total i t c w =
    (with_metric (metric (fst (fst st))) (fst (fst st)), snd (fst st),
     emit [Print Evaluating] (snd st),
     Some (Raised (UnboundLocalError "pixAcc"))).
Proof.
  intros Hnil. cbv zeta. unfold epoch.
  pose proof (train_batches_frame i (train_loader t) t c
    (emit [Print Rule; Print (TrainingEpoch (i + 1) total)] w)) as Hframe.
  destruct (fold_left _ _ _) as [[t1 c1] w1]. cbn [fst snd].
  destruct Hframe as ((_ & _ & _ & Hva & _) & _).
  rewrite Hnil in Hva. unfold validation. rewrite Hva. reflexivity.
Qed.


End Edges.

(** ** From the command line to the checkpoint files *)

Section Main.
Context `{C : Collaborators}.

Lemma schedule_positive i todo s : (0 < fst (schedule (i :: todo) s))%nat.
Proof.
  cbn [schedule]. destruct (stopper_call s PyNone) as [e|s']; [cbn; lia|].
  destruct (early_stop s'); cbn; lia.
Qed.

Lemma best_record_file_stays crit tr va s start k :
  is_Some (snd (best_record crit tr va s start 1)) ->
  (0 < k)%nat ->
  is_Some (snd (best_record crit tr va s start k)).
Proof.
  intros H1 Hk. induction k as [|[|k] IH]; [lia|exact H1|].
  cbn [best_record] in *. destruct (Qgtb (fitness_after crit tr va s (S k)) _).
  - by eexists.
  - apply IH. lia.
Qed.

Lemma Trainer_init_outcome a w :
  match Trainer_init a w with
  | inl e => dataset a ≠ "nyu" /\ dataset a ≠ "ml4ded"
  | inr (t0, w0) => exists name, trace w0 = trace w ++ [Print (UsingDataset name)]
  end.
Proof.
  unfold Trainer_init.
  case_bool_decide as Hnyu; [by eexists|].
  case_bool_decide as Hml; [by eexists|]. by split.
Qed.

Lemma with_device_twice d d' a : with_device d (with_device d' a) = with_device d a.
Proof. reflexivity. Qed.


End Main.

(** ** The stand-in run, again *)

Section StandInMore.
#[local] Existing Instance Demo.collaborators.




Lemma run_trains_one_pass_per_epoch_witness :
  val_loader Demo.trainer ≠ []
  /\ (let '(t', c', w', _) := train Demo.trainer Demo.greeted_world in
      let n := length (epochs_begun (new_events Demo.greeted_world w')) in
      iteration c' = Z.of_nat (n * length (train_loader Demo.trainer))).
Proof.
  assert (H : val_loader Demo.trainer ≠ []) by discriminate.
  split; [exact H|].
  pose proof (run_trains_one_pass_per_epoch Demo.trainer Demo.greeted_world H)
    as Hrun.
  destruct (train Demo.trainer Demo.greeted_world) as [[[t' c'] w'] out].
  destruct Hrun as (_ & Hit & _). exact Hit.
Defined.

(** The stand-in run on disk: eleven epochs leave the head of the last
    one in both files, the last epoch being the best so far. *)
Example Demo_run_leaves_both_files :
  let '(t', _, w', _) := train Demo.trainer Demo.greeted_world in
  files w' !! "./ckpt/dinov2_seg.pth" = Some 33
  /\ files w' !! "./ckpt/dinov2_seg_best_model.pth" = Some 33
  /\ length (saved (trace w')) = 11%nat.
Proof. vm_compute. repeat split. Qed.

End StandInMore.
